(** * Congress Vote Tracker: the proxy relay and the vote aggregator

    A shallow embedding of [src/server.js] (the two proxy routes) and of
    [src/client/src/App.jsx] ([getYearForCongress], [fetchJson], [fetchXml]
    and the [fetchVotes] callback of [App]), followed by the properties the
    specification states about them.

    Conventions of the model.
    - A JavaScript string is a [string]: its characters are the code units,
      restricted to the 8-bit range.
    - A JavaScript number is an integer [Z] (roll-call numbers, tallies,
      HTTP statuses, time values in milliseconds), of a size that prints in
      plain decimal; [NaN] is [None] where a computation can produce it.
      Fractional numbers are not modelled.
    - A [throw] is the [Throw] branch of the [completion] type; the
      [try]/[catch] of [fetchVotes] is a [match] on it.
    - What the JavaScript engine or a library leaves open (the text of a
      [TypeError], the date heuristics of [Date.parse] outside the ISO
      format, [JSON.parse], [DOMParser]) is a [Variable] of a [Section]. *)

From Stdlib Require Import ZArith List String Ascii Bool Lia.
From Stdlib Require Import DecimalString Permutation Sorted.
From Stdlib Require DecimalZ DecimalPos.
Import ListNotations.

Set Warnings "-register-all".

Open Scope string_scope.
Open Scope Z_scope.

(* ================================================================== *)
(** ** JavaScript values, exceptions and conversions *)

Module JS.

(** The values the client handles: what [JSON.parse] returns, and
    [undefined] for a missing property or a missing DOM node.  The fields of
    an [Obj] are listed in property order, each key once. *)
Inductive value : Type :=
| Undefined
| Null
| Bool (b : bool)
| Num (z : Z)
| Str (s : string)
| Arr (items : list value)
| Obj (fields : list (string * value)).

Section Induction.

Variable P : value -> Prop.
Hypothesis P_undefined : P Undefined.
Hypothesis P_null : P Null.
Hypothesis P_bool : forall b, P (Bool b).
Hypothesis P_num : forall z, P (Num z).
Hypothesis P_str : forall s, P (Str s).
Hypothesis P_arr : forall items, Forall P items -> P (Arr items).
Hypothesis P_obj : forall fields, Forall (fun kv => P (snd kv)) fields -> P (Obj fields).

(** Induction on a value through its items and fields. *)
Fixpoint value_nested_ind (v : value) : P v :=
  match v with
  | Undefined => P_undefined
  | Null => P_null
  | Bool b => P_bool b
  | Num z => P_num z
  | Str s => P_str s
  | Arr items =>
      P_arr items
        ((fix all (l : list value) : Forall P l :=
            match l with
            | [] => Forall_nil P
            | x :: rest => Forall_cons x (value_nested_ind x) (all rest)
            end) items)
  | Obj fields =>
      P_obj fields
        ((fix all (l : list (string * value)) : Forall (fun kv => P (snd kv)) l :=
            match l with
            | [] => Forall_nil _
            | kv :: rest =>
                Forall_cons (P := fun kv => P (snd kv)) kv
                            (value_nested_ind (snd kv)) (all rest)
            end) fields)
  end.

End Induction.

(** Thrown values.  [Error m] is [new Error(m)]; [TypeError site] is the
    engine's own error at the named expression. *)
Inductive exn : Type :=
| Error (message : string)
| TypeError (site : string).

Inductive completion (A : Type) : Type :=
| Normal (a : A)
| Throw (e : exn).
Arguments Normal {A} a.
Arguments Throw {A} e.

Definition bind {A B} (c : completion A) (k : A -> completion B) : completion B :=
  match c with
  | Normal a => k a
  | Throw e => Throw e
  end.

Notation "'let!' x ':=' c 'in' k" := (bind c (fun x => k))
  (at level 10, x name, c at level 100, k at level 200).

(** [ToBoolean]. *)
Definition truthy (v : value) : bool :=
  match v with
  | Undefined | Null => false
  | Bool b => b
  | Num z => negb (z =? 0)
  | Str s => negb (s =? "")%string
  | Arr _ | Obj _ => true
  end.

Fixpoint lookup (k : string) (fields : list (string * value)) : option value :=
  match fields with
  | [] => None
  | (k', v) :: rest => if (k =? k')%string then Some v else lookup k rest
  end.

(** [v.name] for a name that no prototype defines (all the names the client
    reads: roll_calls, roll_call, vote_number, ...). *)
Definition get (site : string) (v : value) (name : string) : completion value :=
  match v with
  | Undefined | Null => Throw (TypeError site)
  | Obj fields =>
      match lookup name fields with
      | Some x => Normal x
      | None => Normal Undefined
      end
  | _ => Normal Undefined
  end.

(** [v.name] on a value that is neither [null] nor [undefined]. *)
Definition field (v : value) (name : string) : value :=
  match v with
  | Obj fields =>
      match lookup name fields with
      | Some x => x
      | None => Undefined
      end
  | _ => Undefined
  end.

Definition nullish (v : value) : bool :=
  match v with
  | Undefined | Null => true
  | _ => false
  end.

(** [Number.prototype.toString] on an integer. *)
Definition showZ (z : Z) : string := NilZero.string_of_int (Z.to_int z).

(** [Array.prototype.join(",")] over already converted items. *)
Fixpoint joinComma (parts : list string) : string :=
  match parts with
  | [] => ""
  | [p] => p
  | p :: rest => p ++ "," ++ joinComma rest
  end.

Fixpoint sequence {A} (cs : list (completion A)) : completion (list A) :=
  match cs with
  | [] => Normal []
  | c :: rest =>
      let! a := c in
      let! r := sequence rest in
      Normal (a :: r)
  end.

(** [ToString], as a template literal applies it.  An object that carries
    its own [toString] property (never a function after [JSON.parse]) cannot
    be converted; an array joins its items, [null] and [undefined] items as
    the empty string. *)
Fixpoint toString (site : string) (v : value) : completion string :=
  match v with
  | Undefined => Normal "undefined"
  | Null => Normal "null"
  | Bool true => Normal "true"
  | Bool false => Normal "false"
  | Num z => Normal (showZ z)
  | Str s => Normal s
  | Arr items =>
      let! parts :=
        sequence
          (map (fun x =>
                  match x with
                  | Undefined | Null => Normal ""
                  | _ => toString site x
                  end) items) in
      Normal (joinComma parts)
  | Obj fields =>
      match lookup "toString" fields with
      | Some _ => Throw (TypeError site)
      | None => Normal "[object Object]"
      end
  end.

(** White space and line terminators of [String.prototype.trim] among the
    8-bit code units: TAB, LF, VT, FF, CR, SP, NBSP. *)
Definition isWhite (c : ascii) : bool :=
  let n := nat_of_ascii c in
  ((9 <=? n) && (n <=? 13) || (n =? 32) || (n =? 160))%nat.

Fixpoint trimStart (s : string) : string :=
  match s with
  | EmptyString => EmptyString
  | String c rest => if isWhite c then trimStart rest else s
  end.

Fixpoint reverse (s : string) : string :=
  match s with
  | EmptyString => EmptyString
  | String c rest => reverse rest ++ String c EmptyString
  end.

Definition trimEnd (s : string) : string := reverse (trimStart (reverse s)).

Definition trim (s : string) : string := trimEnd (trimStart s).

(** [x.trim()]: only a string has the method. *)
Definition callTrim (site : string) (x : value) : completion string :=
  match x with
  | Str s => Normal (trim s)
  | _ => Throw (TypeError site)
  end.

(** [s.slice(0, n)]. *)
Definition slice0 (n : nat) (s : string) : string := substring 0 n s.

End JS.

Import JS.

(* ================================================================== *)
(** ** The XML documents of [DOMParser] *)

Module DOM.

Inductive node : Type :=
| Text (data : string)
| Element (tag : string) (children : list node).

(** A parsed document and its root element.  When the parser rejects the
    input, the document it returns holds a [parsererror] element. *)
Inductive document : Type :=
| Document (root : node).

Fixpoint textContent (n : node) : string :=
  match n with
  | Text data => data
  | Element _ children => String.concat "" (map textContent children)
  end.

(** The elements below [n] in document order, each with the tag of its
    parent. *)
Fixpoint within (n : node) : list (string * node) :=
  match n with
  | Text _ => []
  | Element tag children =>
      flat_map
        (fun c =>
           match c with
           | Text _ => []
           | Element _ _ => (tag, c) :: within c
           end) children
  end.

Definition inDocument (d : document) : list (string * node) :=
  match d with
  | Document (Text _) => []
  | Document (Element tag children as root) => ("#document", root) :: within root
  end.

(** The two selector shapes the client uses: [name] and [parent > name]. *)
Inductive selector : Type :=
| ByTag (name : string)
| ChildOf (parent name : string).

Definition tagOf (n : node) : string :=
  match n with
  | Text _ => "#text"
  | Element tag _ => tag
  end.

Definition matches (sel : selector) (pe : string * node) : bool :=
  match sel with
  | ByTag name => (tagOf (snd pe) =? name)%string
  | ChildOf parent name =>
      ((fst pe =? parent) && (tagOf (snd pe) =? name))%string
  end.

Definition querySelectorAll (sel : selector) (n : node) : list node :=
  map snd (filter (matches sel) (within n)).

Definition querySelector (sel : selector) (n : node) : option node :=
  hd_error (querySelectorAll sel n).

Definition docQuerySelectorAll (sel : selector) (d : document) : list node :=
  map snd (filter (matches sel) (inDocument d)).

Definition docQuerySelector (sel : selector) (d : document) : option node :=
  hd_error (docQuerySelectorAll sel d).

(** [n?.textContent] *)
Definition optText (n : option node) : value :=
  match n with
  | Some e => Str (textContent e)
  | None => Undefined
  end.

(** String conversion of [n?.textContent] under [+] or in a template. *)
Definition showText (v : value) : string :=
  match v with
  | Str s => s
  | _ => "undefined"
  end.

End DOM.

(* ================================================================== *)
(** ** [Date]: time values, the ISO format of [Date.parse], [new Date(v)] *)

Module JSDate.

Definition msPerDay : Z := 86400000.

(** [DayFromYear] of ECMA-262. *)
Definition dayFromYear (y : Z) : Z :=
  365 * (y - 1970) + (y - 1969) / 4 - (y - 1901) / 100 + (y - 1601) / 400.

Definition isLeap (y : Z) : bool :=
  ((y mod 4 =? 0) && negb (y mod 100 =? 0)) || (y mod 400 =? 0).

Definition daysInMonth (y m : Z) : Z :=
  if m =? 2 then (if isLeap y then 29 else 28)
  else if (m =? 4) || (m =? 6) || (m =? 9) || (m =? 11) then 30
  else 31.

(** Days of the year before month [m] (1 to 12). *)
Definition daysBeforeMonth (y m : Z) : Z :=
  fold_left (fun acc k => acc + daysInMonth y k)
            (map Z.of_nat (seq 1 (Z.to_nat (m - 1)))) 0.

(** [MakeDate(MakeDay(y, m - 1, d), MakeTime(h, mi, s, ms))]. *)
Definition makeDate (y m d h mi s ms : Z) : Z :=
  (dayFromYear y + daysBeforeMonth y m + (d - 1)) * msPerDay
  + h * 3600000 + mi * 60000 + s * 1000 + ms.

Definition digit (c : ascii) : option Z :=
  let n := Z.of_nat (nat_of_ascii c) in
  if (48 <=? n) && (n <=? 57) then Some (n - 48) else None.

Fixpoint digits (acc : Z) (cs : list ascii) : option Z :=
  match cs with
  | [] => Some acc
  | c :: rest =>
      match digit c with
      | Some d => digits (10 * acc + d) rest
      | None => None
      end
  end.

Definition number (cs : list ascii) : option Z := digits 0 cs.

(** What follows the minutes: [":ss"], then [".sss"], then ["Z"], each
    optional.  Returns seconds, milliseconds and whether the time is UTC. *)
Definition afterMinutes (cs : list ascii) : option (Z * Z * bool) :=
  let zone (rest : list ascii) : option bool :=
    match rest with
    | [] => Some false
    | ["Z"%char] => Some true
    | _ => None
    end in
  match cs with
  | ":"%char :: s1 :: s2 :: rest =>
      match number [s1; s2] with
      | Some s =>
          if s <=? 59 then
            match rest with
            | "."%char :: f1 :: f2 :: f3 :: rest' =>
                match number [f1; f2; f3], zone rest' with
                | Some ms, Some utc => Some (s, ms, utc)
                | _, _ => None
                end
            | _ =>
                match zone rest with
                | Some utc => Some (s, 0, utc)
                | None => None
                end
            end
          else None
      | None => None
      end
  | _ =>
      match zone cs with
      | Some utc => Some (0, 0, utc)
      | None => None
      end
  end.

Section Parse.

(** The offset of local time from UTC, in milliseconds, at a local time
    value ([LocalTZA]). *)
Variable localTZA : Z -> Z.

(** What [Date.parse] does with a string outside the ISO format:
    implementation-defined. *)
Variable legacyParse : string -> option Z.

(** The date-time string format of ECMA-262 in the forms [YYYY-MM-DD] and
    [YYYY-MM-DDTHH:mm] with optional [:ss], [.sss] and [Z].  A date-only
    form is UTC; a date-time form without [Z] is local time. *)
Definition isoParse (s : string) : option Z :=
  match list_ascii_of_string s with
  | y1 :: y2 :: y3 :: y4 :: "-"%char :: m1 :: m2 :: "-"%char :: d1 :: d2 :: rest =>
      match number [y1; y2; y3; y4], number [m1; m2], number [d1; d2] with
      | Some y, Some m, Some d =>
          if (1 <=? m) && (m <=? 12) && (1 <=? d) && (d <=? daysInMonth y m) then
            match rest with
            | [] => Some (makeDate y m d 0 0 0 0)
            | "T"%char :: h1 :: h2 :: ":"%char :: n1 :: n2 :: rest' =>
                match number [h1; h2], number [n1; n2], afterMinutes rest' with
                | Some h, Some mi, Some (sec, ms, utc) =>
                    if (h <=? 23) && (mi <=? 59) then
                      let t := makeDate y m d h mi sec ms in
                      Some (if utc then t else t - localTZA t)
                    else None
                | _, _, _ => None
                end
            | _ => None
            end
          else None
      | _, _, _ => None
      end
  | _ => None
  end.

Definition parse (s : string) : option Z :=
  match isoParse s with
  | Some t => Some t
  | None => legacyParse s
  end.

(** [TimeClip]. *)
Definition timeClip (t : Z) : option Z :=
  if Z.abs t <=? 8640000000000000 then Some t else None.

(** The time value of [new Date(v)]; [None] is [NaN], an invalid date. *)
Definition construct (v : value) : completion (option Z) :=
  match v with
  | Undefined => Normal None
  | Null => Normal (Some 0)
  | Bool b => Normal (Some (if b then 1 else 0))
  | Num z => Normal (timeClip z)
  | Str s => Normal (parse s)
  | Arr _ | Obj _ =>
      let! s := toString "new Date" v in
      Normal (parse s)
  end.

(** [new Date(y) - new Date(x)]: [NaN] as soon as one date is invalid. *)
Definition minus (y x : value) : completion (option Z) :=
  let! ty := construct y in
  let! tx := construct x in
  Normal (match ty, tx with
          | Some a, Some b => Some (a - b)
          | _, _ => None
          end).

End Parse.

End JSDate.

(* ================================================================== *)
(** ** [Array.prototype.sort] *)

Module JSArray.

Section Sort.

Context {A : Type}.

(** The comparator, which may throw and may return [NaN]. *)
Variable comparefn : A -> A -> completion (option Z).

(** [SortCompare]: a [NaN] from the comparator counts as [+0]. *)
Definition sortCompare (x y : A) : completion Z :=
  let! v := comparefn x y in
  Normal (match v with Some n => n | None => 0 end).

(** One step of the insertion sort: [sorted] is the part of the array
    already in order, last item first; [x] moves left past every item that
    compares greater. *)
Fixpoint insert (x : A) (sorted : list A) : completion (list A) :=
  match sorted with
  | [] => Normal [x]
  | y :: rest =>
      let! order := sortCompare y x in
      if order >? 0 then
        let! rest' := insert x rest in
        Normal (y :: rest')
      else Normal (x :: sorted)
  end.

Fixpoint insertAll (sorted : list A) (items : list A) : completion (list A) :=
  match items with
  | [] => Normal sorted
  | x :: rest =>
      let! sorted' := insert x sorted in
      insertAll sorted' rest
  end.

(** A stable sort, as ECMA-262 requires: the straight insertion sort. *)
Definition sort (items : list A) : completion (list A) :=
  let! backwards := insertAll [] items in
  Normal (List.rev backwards).

End Sort.

Section Order.

Context {A : Type}.
Variable comparefn : A -> A -> completion (option Z).
Variable key : A -> Z.

(** On the items at hand the comparator is [(a, b) => key b - key a] for a
    numeric [key]: the case of dates that all parse. *)
Definition keyed (items : list A) : Prop :=
  forall x y, In x items -> In y items ->
              comparefn x y = Normal (Some (key y - key x)).

Definition ascending (a b : A) : Prop := key a <= key b.

Definition descending (a b : A) : Prop := key b <= key a.

Definition sameKey (t : Z) (a : A) : bool := key a =? t.

End Order.

End JSArray.

(* ================================================================== *)
(** ** The client: [src/client/src/App.jsx] *)

Module App.

Import DOM.

Record settings : Type := {
  congress : Z;
  session : Z;
  includeHouse : bool;
  includeSenate : bool
}.

(** The two values of the [chamber] field. *)
Inductive chamberName : Type := Senate | House.

(** The object built for each roll call. *)
Record vote : Type := {
  chamber : chamberName;
  number : value;
  date : value;
  title : string;
  result : string;
  key : string
}.

(** The React state of [App] that [fetchVotes] writes. *)
Record state : Type := {
  votes : list vote;
  loading : bool;
  error : option string
}.

(** What [fetch(url)] and then [res.text()] give: [fetch] rejects with an
    error of the given name and message, or resolves to a response with a
    status whose body is read or fails to be read. *)
Inductive fetched : Type :=
| Rejected (name message : string)
| Response (status : Z) (text : completion string).

(** What leaves the function besides the state: the requests sent and the
    console lines written, in order. *)
Inductive effect : Type :=
| Fetch (url : string)
| ConsoleWarn (message : string) (data : value)
| ConsoleError (e : exn).

Definition isFetch (e : effect) : bool :=
  match e with
  | Fetch _ => true
  | _ => false
  end.

(** A computation that logs effects and completes or throws. *)
Definition action (A : Type) : Type := list effect * completion A.

Definition ret {A} (a : A) : action A := ([], Normal a).

Definition lift {A} (c : completion A) : action A := ([], c).

Definition tell (e : effect) : action unit := ([e], Normal tt).

Definition andThen {A B} (m : action A) (k : A -> action B) : action B :=
  match m with
  | (log, Normal a) => let (log', r) := k a in ((log ++ log')%list, r)
  | (log, Throw e) => (log, Throw e)
  end.

Notation "'do!' x ':=' m 'in' k" := (andThen m (fun x => k))
  (at level 10, x name, m at level 100, k at level 200).

(** Helper to calculate the correct year for a given Congress and Session.
    The arithmetic is that of the integers, which is that of the code as
    long as the year stays below 2^53. *)
Definition getYearForCongress (congress session : Z) : Z :=
  1789 + (congress - 1) * 2 + (session - 1).

Definition HOUSE_ROLLS_INDEX (year : Z) : string := "/api/house/" ++ showZ year.

Definition senateMenuUrl (congress session : Z) : string :=
  "/api/senate/" ++ showZ congress ++ "/" ++ showZ session.

(** [label || "URL"] *)
Definition labelOr (label : string) : string :=
  if (label =? "")%string then "URL" else label.

(** [e?.message || e] inside a template, for the error [fetch] rejects
    with: an error without message prints as its name. *)
Definition rejectionText (name message : string) : string :=
  if (message =? "")%string then name else message.

Definition ok (status : Z) : bool := (200 <=? status) && (status <=? 299).

Definition httpFailure (label : string) (status : Z) (text : string) : string :=
  trim (labelOr label ++ " failed (HTTP " ++ showZ status ++ "). " ++ slice0 180 text).

Definition networkFailure (label name message : string) : string :=
  labelOr label ++ " failed (network): " ++ rejectionText name message.

Definition invalidJson (label text : string) : string :=
  labelOr label ++ " returned invalid JSON. Response text: " ++ slice0 180 text.

Definition xmlParseError (label : string) (err : node) : string :=
  labelOr label ++ " XML parse error: " ++ textContent err.

Definition chamberError : string :=
  "Please select at least one chamber (House or Senate) to fetch votes.".

Definition senateWarning : string :=
  "Senate data format unexpected or no roll calls found.".

Section Client.

(** The network as the browser shows it to the page. *)
Variable fetch : string -> fetched.

(** [JSON.parse]; [None] when it throws. *)
Variable JSON_parse : string -> option value.

(** [new DOMParser().parseFromString(text, "text/xml")]. *)
Variable parseFromString : string -> document.

(** The message the engine gives a [TypeError] raised at a site. *)
Variable typeErrorMessage : string -> string.

Variable localTZA : Z -> Z.
Variable legacyParse : string -> option Z.

Definition message (e : exn) : string :=
  match e with
  | Error m => m
  | TypeError site => typeErrorMessage site
  end.

(** Robustly fetches and parses JSON from a URL. *)
Definition fetchJson (url label : string) : action value :=
  do! _ := tell (Fetch url) in
  match fetch url with
  | Rejected name msg => lift (Throw (Error (networkFailure label name msg)))
  | Response status body =>
      do! text := lift body in
      if negb (ok status) then lift (Throw (Error (httpFailure label status text)))
      else
        match JSON_parse text with
        | Some data => ret data
        | None => lift (Throw (Error (invalidJson label text)))
        end
  end.

(** Robustly fetches and parses XML from a URL. *)
Definition fetchXml (url label : string) : action document :=
  do! _ := tell (Fetch url) in
  match fetch url with
  | Rejected name msg => lift (Throw (Error (networkFailure label name msg)))
  | Response status body =>
      do! text := lift body in
      if negb (ok status) then lift (Throw (Error (httpFailure label status text)))
      else
        let doc := parseFromString text in
        match docQuerySelector (ByTag "parsererror") doc with
        | Some err => lift (Throw (Error (xmlParseError label err)))
        | None => ret doc
        end
  end.

(** The callback of [data.roll_calls.roll_call.map]. *)
Definition senateVote (s : settings) (v : value) : completion vote :=
  let! vote_number := get "v.vote_number" v "vote_number" in
  let! vote_date := get "v.vote_date" v "vote_date" in
  let! issue := get "v.issue" v "issue" in
  let! issue' := callTrim "v.issue.trim" issue in
  let! question := get "v.question" v "question" in
  let! question' := callTrim "v.question.trim" question in
  let! res := get "v.result" v "result" in
  let! res' := toString "v.result" res in
  let! counts := get "v.counts" v "counts" in
  let! yea := get "v.counts.Yea" counts "Yea" in
  let! yea' := toString "v.counts.Yea" yea in
  let! nay := get "v.counts.Nay" counts "Nay" in
  let! nay' := toString "v.counts.Nay" nay in
  let! number' := toString "v.vote_number" vote_number in
  Normal {|
    chamber := Senate;
    number := vote_number;
    date := vote_date;
    title := issue' ++ ": " ++ question';
    result := res' ++ " (" ++ yea' ++ "-" ++ nay' ++ ")";
    key := "s-" ++ showZ (congress s) ++ "-" ++ showZ (session s) ++ "-" ++ number'
  |}.

(** [x.map(f)] where [x] came out of [JSON.parse]: only an array has the
    method. *)
Definition callMap {B} (site : string) (x : value) (f : value -> completion B)
  : completion (list B) :=
  match x with
  | Arr items => sequence (map f items)
  | _ => Throw (TypeError site)
  end.

(** Fetch Senate votes if included. *)
Definition senateBranch (s : settings) : action (list vote) :=
  let url := senateMenuUrl (congress s) (session s) in
  do! data := fetchJson url "Senate Votes" in
  do! roll_calls := lift (get "data.roll_calls" data "roll_calls") in
  do! roll_call :=
    lift (if truthy roll_calls
          then get "data.roll_calls.roll_call" roll_calls "roll_call"
          else Normal roll_calls) in
  if truthy roll_call then
    lift (callMap "data.roll_calls.roll_call.map" roll_call (senateVote s))
  else
    do! _ := tell (ConsoleWarn senateWarning data) in
    ret [].

(** The callback of the [map] over the [rollcall-vote] elements. *)
Definition houseVote (year : Z) (v : node) : vote :=
  let date :=
    showText (optText (querySelector (ByTag "action-date") v))
    ++ "T" ++
    showText (optText (querySelector (ByTag "action-time") v)) in
  {|
    chamber := House;
    number := optText (querySelector (ByTag "rollcall-num") v);
    date := Str date;
    title :=
      (let t := optText (querySelector (ByTag "vote-question") v) in
       if truthy t then showText t else "N/A");
    result :=
      showText (optText (querySelector (ByTag "vote-result") v))
      ++ " (" ++
      showText (optText (querySelector (ChildOf "totals-by-vote" "yea-total") v))
      ++ "-" ++
      showText (optText (querySelector (ChildOf "totals-by-vote" "nay-total") v))
      ++ ")";
    key :=
      "h-" ++ showZ year ++ "-" ++
      showText (optText (querySelector (ByTag "rollcall-num") v))
  |}.

(** Fetch House votes if included. *)
Definition houseBranch (s : settings) : action (list vote) :=
  let year := getYearForCongress (congress s) (session s) in
  let url := HOUSE_ROLLS_INDEX year in
  do! doc := fetchXml url "House Votes" in
  ret (map (houseVote year) (docQuerySelectorAll (ByTag "rollcall-vote") doc)).

(** [(a, b) => new Date(b.date) - new Date(a.date)] *)
Definition byDateDescending (a b : vote) : completion (option Z) :=
  JSDate.minus localTZA legacyParse (date b) (date a).

(** The body of the [try] block. *)
Definition gather (s : settings) : action (list vote) :=
  do! senateVotes := (if includeSenate s then senateBranch s else ret []) in
  do! houseVotes := (if includeHouse s then houseBranch s else ret []) in
  lift (JSArray.sort byDateDescending (senateVotes ++ houseVotes)%list).

Definition fetchVotes (s : settings) (st : state) : state * list effect :=
  if negb (includeHouse s) && negb (includeSenate s) then
    ({| votes := []; loading := loading st; error := Some chamberError |}, [])
  else
    match gather s with
    | (log, Normal fetchedVotes) =>
        ({| votes := fetchedVotes; loading := false; error := None |}, log)
    | (log, Throw e) =>
        ({| votes := []; loading := false; error := Some (message e) |},
         (log ++ [ConsoleError e])%list)
    end.

End Client.

End App.

(* ================================================================== *)
(** ** [JSON.stringify] *)

Module JSON.

Definition hexDigit (n : nat) : ascii :=
  ascii_of_nat (if (n <? 10)%nat then 48 + n else 87 + n).

(** One code unit inside a JSON string literal ([QuoteJSONString]). *)
Definition quoteChar (c : ascii) : string :=
  let n := nat_of_ascii c in
  if (n =? 34)%nat then "\" ++ String c ""
  else if (n =? 92)%nat then "\\"
  else if (n =? 8)%nat then "\b"
  else if (n =? 9)%nat then "\t"
  else if (n =? 10)%nat then "\n"
  else if (n =? 12)%nat then "\f"
  else if (n =? 13)%nat then "\r"
  else if (n <? 32)%nat then
    "\u00" ++ String (hexDigit (n / 16)) (String (hexDigit (n mod 16)) "")
  else String c "".

Fixpoint quoteBody (s : string) : string :=
  match s with
  | EmptyString => ""
  | String c rest => quoteChar c ++ quoteBody rest
  end.

Definition quote (s : string) : string :=
  String (ascii_of_nat 34) (quoteBody s ++ String (ascii_of_nat 34) "").

(** [SerializeJSONProperty] without indentation; [None] is [undefined]. *)
Fixpoint serialize (v : value) : option string :=
  match v with
  | Undefined => None
  | Null => Some "null"
  | Bool true => Some "true"
  | Bool false => Some "false"
  | Num z => Some (showZ z)
  | Str s => Some (quote s)
  | Arr items =>
      Some ("[" ++
            joinComma (map (fun x =>
                              match serialize x with
                              | Some t => t
                              | None => "null"
                              end) items)
            ++ "]")
  | Obj fields =>
      Some ("{" ++
            joinComma
              (flat_map (fun kv =>
                           match serialize (snd kv) with
                           | Some t => [quote (fst kv) ++ ":" ++ t]
                           | None => []
                           end) fields)
            ++ "}")
  end.

End JSON.

(* ================================================================== *)
(** ** The proxy: [src/server.js] *)

Module Proxy.

(** The outcome of [axios.get(url)] before axios looks at the status: no
    response at all, or the final response of the upstream server. *)
Inductive upstream : Type :=
| NoResponse (message : string)
| Upstream (status : Z) (body : string).

(** What the route answers: the status, the Content-Type header as Express
    sends it, and the body. *)
Record response : Type := {
  status : Z;
  contentType : option string;
  body : string
}.

(** axios resolves for a status from 200 to 299 and rejects otherwise
    ([validateStatus]). *)
Definition resolves (status : Z) : bool := (200 <=? status) && (status <? 300).

(** [error.response?.status || 500] *)
Definition failureStatus (u : upstream) : Z :=
  match u with
  | NoResponse _ => 500
  | Upstream st _ => if st =? 0 then 500 else st
  end.

Definition senateUrl (congress session : string) : string :=
  "https://www.senate.gov/legislative/LIS/roll_call_lists/vote_menu_"
  ++ congress ++ "_" ++ session ++ ".json".

Definition houseUrl (year : string) : string :=
  "https://clerk.house.gov/evs/" ++ year ++ "/ROLLS.xml".

Definition senateFailed : string := "Error fetching data from Senate API".

Definition houseFailed : string := "Error fetching data from House API".

Section Routes.

(** The government servers as axios reaches them. *)
Variable axios_get : string -> upstream.

(** [JSON.parse], which axios applies to the body it received. *)
Variable JSON_parse : string -> option value.

(** [response.data] of a request without [responseType]: the parsed body,
    or the body itself when it is not JSON. *)
Definition jsonData (text : string) : value :=
  match JSON_parse text with
  | Some data => data
  | None => Str text
  end.

(** [res.json(data)], which sends JSON in UTF-8. *)
Definition resJson (data : value) : response :=
  {| status := 200;
     contentType := Some "application/json; charset=utf-8";
     body := match JSON.serialize data with Some t => t | None => "" end |}.

(** [res.status(error.response?.status || 500).send(text)]: a string sent
    without a type set goes out as HTML in UTF-8. *)
Definition resFailure (u : upstream) (text : string) : response :=
  {| status := failureStatus u;
     contentType := Some "text/html; charset=utf-8";
     body := text |}.

(** [app.get('/api/senate/:congress/:session', ...)] *)
Definition getSenate (congress session : string) : response :=
  let u := axios_get (senateUrl congress session) in
  match u with
  | Upstream st text =>
      if resolves st then resJson (jsonData text) else resFailure u senateFailed
  | NoResponse _ => resFailure u senateFailed
  end.

(** [app.get('/api/house/:year', ...)], with [responseType: 'text']; to the
    type set by the route, [res.send] adds the charset of the string. *)
Definition getHouse (year : string) : response :=
  let u := axios_get (houseUrl year) in
  match u with
  | Upstream st text =>
      if resolves st then
        {| status := 200;
           contentType := Some "application/xml; charset=utf-8";
           body := text |}
      else resFailure u houseFailed
  | NoResponse _ => resFailure u houseFailed
  end.

End Routes.

End Proxy.

(* ================================================================== *)
(** ** Reference parsers

    [JSON.parse] and [DOMParser] are parameters of the client and of the
    proxy.  To run the model on concrete bodies, this section gives a
    reader for a fragment of each format.  Outside its fragment a reader
    reports a syntax error, so it stands for the real parser only on inputs
    inside the fragment. *)

Module Reader.

Import DOM.

Definition jsonSpace (c : ascii) : bool :=
  let n := nat_of_ascii c in
  ((n =? 32) || (n =? 9) || (n =? 10) || (n =? 13))%nat.

Fixpoint skip (cs : list ascii) : list ascii :=
  match cs with
  | c :: rest => if jsonSpace c then skip rest else cs
  | [] => []
  end.

(** The digits at the head of [cs], as a number, and what follows. *)
Fixpoint leadingDigits (acc : Z) (cs : list ascii) : Z * list ascii :=
  match cs with
  | c :: rest =>
      match JSDate.digit c with
      | Some d => leadingDigits (10 * acc + d) rest
      | None => (acc, cs)
      end
  | [] => (acc, [])
  end.

(** A JSON integer: ["0"] or a digit from 1 to 9 followed by digits, not
    followed by a fraction or an exponent. *)
Definition natural (cs : list ascii) : option (Z * list ascii) :=
  match cs with
  | c :: rest =>
      match JSDate.digit c with
      | Some d =>
          let (n, rest') := if d =? 0 then (0, rest) else leadingDigits d rest in
          match rest' with
          | "."%char :: _ | "e"%char :: _ | "E"%char :: _ => None
          | _ => Some (n, rest')
          end
      | None => None
      end
  | [] => None
  end.

(** The characters of a string literal after its opening quote, without
    escape sequences. *)
Fixpoint literal (cs : list ascii) : option (string * list ascii) :=
  match cs with
  | [] => None
  | c :: rest =>
      let n := nat_of_ascii c in
      if (n =? 34)%nat then Some ("", rest)
      else if ((n =? 92) || (n <? 32))%nat then None
      else
        match literal rest with
        | Some (s, rest') => Some (String c s, rest')
        | None => None
        end
  end.

Fixpoint allDigits (s : string) : bool :=
  match s with
  | EmptyString => true
  | String c rest =>
      match JSDate.digit c with
      | Some _ => allDigits rest
      | None => false
      end
  end.

(** [CreateDataProperty] on the fields read so far: a repeated key keeps
    its place and takes the new value. *)
Fixpoint define (k : string) (v : value) (fields : list (string * value))
  : list (string * value) :=
  match fields with
  | [] => [(k, v)]
  | (k', v') :: rest =>
      if (k =? k')%string then (k, v) :: rest else (k', v') :: define k v rest
  end.

Definition quoteMark : ascii := ascii_of_nat 34.

Fixpoint jsonValue (fuel : nat) (cs : list ascii) : option (value * list ascii) :=
  match fuel with
  | O => None
  | S fuel' =>
      match skip cs with
      | "n"%char :: "u"%char :: "l"%char :: "l"%char :: rest => Some (Null, rest)
      | "t"%char :: "r"%char :: "u"%char :: "e"%char :: rest => Some (Bool true, rest)
      | "f"%char :: "a"%char :: "l"%char :: "s"%char :: "e"%char :: rest =>
          Some (Bool false, rest)
      | "["%char :: rest =>
          match skip rest with
          | "]"%char :: rest' => Some (Arr [], rest')
          | _ =>
              match jsonItems fuel' rest with
              | Some (items, rest') => Some (Arr items, rest')
              | None => None
              end
          end
      | "{"%char :: rest =>
          match skip rest with
          | "}"%char :: rest' => Some (Obj [], rest')
          | _ =>
              match jsonMembers fuel' [] rest with
              | Some (fields, rest') => Some (Obj fields, rest')
              | None => None
              end
          end
      | "-"%char :: rest =>
          match natural rest with
          | Some (n, rest') => Some (Num (- n), rest')
          | None => None
          end
      | c :: rest =>
          if Ascii.eqb c quoteMark then
            match literal rest with
            | Some (s, rest') => Some (Str s, rest')
            | None => None
            end
          else
            match natural (c :: rest) with
            | Some (n, rest') => Some (Num n, rest')
            | None => None
            end
      | [] => None
      end
  end
with jsonItems (fuel : nat) (cs : list ascii) : option (list value * list ascii) :=
  match fuel with
  | O => None
  | S fuel' =>
      match jsonValue fuel' cs with
      | Some (v, rest) =>
          match skip rest with
          | ","%char :: rest' =>
              match jsonItems fuel' rest' with
              | Some (vs, rest'') => Some (v :: vs, rest'')
              | None => None
              end
          | "]"%char :: rest' => Some ([v], rest')
          | _ => None
          end
      | None => None
      end
  end
with jsonMembers (fuel : nat) (seen : list (string * value)) (cs : list ascii)
  : option (list (string * value) * list ascii) :=
  match fuel with
  | O => None
  | S fuel' =>
      match skip cs with
      | c :: rest =>
          if Ascii.eqb c quoteMark then
            match literal rest with
            | Some (k, rest') =>
                if allDigits k then None
                else
                  match skip rest' with
                  | ":"%char :: rest'' =>
                      match jsonValue fuel' rest'' with
                      | Some (v, rest3) =>
                          let seen' := define k v seen in
                          match skip rest3 with
                          | ","%char :: rest4 => jsonMembers fuel' seen' rest4
                          | "}"%char :: rest4 => Some (seen', rest4)
                          | _ => None
                          end
                      | None => None
                      end
                  | _ => None
                  end
            | None => None
            end
          else None
      | [] => None
      end
  end.

(** [JSON.parse] on JSON text with integer numbers, string literals
    without escapes and object keys that are not array indices. *)
Definition parseJson (text : string) : option value :=
  let cs := list_ascii_of_string text in
  match jsonValue (S (List.length cs)) cs with
  | Some (v, rest) =>
      match skip rest with
      | [] => Some v
      | _ => None
      end
  | None => None
  end.

(** A tag name: the characters up to [>] or [/]; no attributes. *)
Fixpoint tagName (cs : list ascii) : option (string * list ascii) :=
  match cs with
  | [] => None
  | c :: rest =>
      if (Ascii.eqb c ">" || Ascii.eqb c "/")%char then Some ("", cs)
      else if (jsonSpace c || Ascii.eqb c "<" || Ascii.eqb c "=" || Ascii.eqb c quoteMark)%char
      then None
      else
        match tagName rest with
        | Some (name, rest') => Some (String c name, rest')
        | None => None
        end
  end.

(** Character data up to the next [<]; no references. *)
Fixpoint charData (cs : list ascii) : option (string * list ascii) :=
  match cs with
  | [] => Some ("", [])
  | c :: rest =>
      if Ascii.eqb c "<" then Some ("", cs)
      else if Ascii.eqb c "&" then None
      else
        match charData rest with
        | Some (s, rest') => Some (String c s, rest')
        | None => None
        end
  end.

Fixpoint stripPrefix (p cs : list ascii) : option (list ascii) :=
  match p, cs with
  | [], _ => Some cs
  | a :: p', c :: cs' => if Ascii.eqb a c then stripPrefix p' cs' else None
  | _ :: _, [] => None
  end.

(** The end tag of [name] at the head of [cs]. *)
Definition endTag (name : string) (cs : list ascii) : option (list ascii) :=
  stripPrefix (list_ascii_of_string ("</" ++ name ++ ">")) cs.

(** The content of an element: nodes up to an end tag or the end of the
    input. *)
Fixpoint xmlContent (fuel : nat) (cs : list ascii) : option (list node * list ascii) :=
  match fuel with
  | O => None
  | S fuel' =>
      match cs with
      | [] => Some ([], [])
      | "<"%char :: "/"%char :: _ => Some ([], cs)
      | "<"%char :: rest =>
          match tagName rest with
          | Some (name, "/"%char :: ">"%char :: rest') =>
              match xmlContent fuel' rest' with
              | Some (siblings, rest'') => Some (Element name [] :: siblings, rest'')
              | None => None
              end
          | Some (name, ">"%char :: rest') =>
              match xmlContent fuel' rest' with
              | Some (children, rest'') =>
                  match endTag name rest'' with
                  | Some rest3 =>
                      match xmlContent fuel' rest3 with
                      | Some (siblings, rest4) =>
                          Some (Element name children :: siblings, rest4)
                      | None => None
                      end
                  | None => None
                  end
              | None => None
              end
          | _ => None
          end
      | _ =>
          match charData cs with
          | Some (s, rest) =>
              match xmlContent fuel' rest with
              | Some (siblings, rest') => Some (Text s :: siblings, rest')
              | None => None
              end
          | None => None
          end
      end
  end.

Fixpoint blank (s : string) : bool :=
  match s with
  | EmptyString => true
  | String c rest => jsonSpace c && blank rest
  end.

Definition significant (n : node) : bool :=
  match n with
  | Text s => negb (blank s)
  | Element _ _ => true
  end.

Definition parserError : document :=
  Document (Element "parsererror" [Text "XML Parsing Error: not well-formed"]).

(** [DOMParser.parseFromString] on XML text made of elements without
    attributes and character data without references. *)
Definition parseXml (text : string) : document :=
  let cs := list_ascii_of_string text in
  match xmlContent (S (List.length cs)) cs with
  | Some (nodes, []) =>
      match filter significant nodes with
      | [Element tag children] => Document (Element tag children)
      | _ => parserError
      end
  | _ => parserError
  end.

End Reader.

(* ================================================================== *)
(** ** The vocabulary of the specification *)

Module Spec.

Import DOM App.

(** The last congress whose two years are below 2^53, up to which the
    arithmetic of JavaScript numbers is exact. *)
Definition lastCongress : Z := 4503599627369602.

(** A congress from the first to the last, in its first or second
    session. *)
Definition validPeriod (congress session : Z) : Prop :=
  1 <= congress <= lastCongress /\ (session = 1 \/ session = 2).

(** [(c1, s1)] is at or before [(c2, s2)] in lexicographic order. *)
Definition lexLe (c1 s1 c2 s2 : Z) : Prop :=
  c1 < c2 \/ (c1 = c2 /\ s1 <= s2).

(** The value is a JavaScript number holding an integer. *)
Definition isInteger (v : value) : bool :=
  match v with
  | Num _ => true
  | _ => false
  end.

(** The value is an integer or a string of decimal digits. *)
Definition denotesInteger (v : value) : bool :=
  match v with
  | Num _ => true
  | Str s => negb (s =? "")%string && Reader.allDigits s
  | _ => false
  end.

Fixpoint allSome {A} (os : list (option A)) : option (list A) :=
  match os with
  | [] => Some []
  | Some a :: rest =>
      match allSome rest with
      | Some r => Some (a :: r)
      | None => None
      end
  | None :: _ => None
  end.

(** How a template prints a value, if it can: numbers in decimal, strings
    as they are, [undefined], [null], [true] and [false] by name, an array
    as its items joined by commas, an object as [[object Object]]. *)
Fixpoint printed (v : value) : option string :=
  match v with
  | Undefined => Some "undefined"
  | Null => Some "null"
  | Bool true => Some "true"
  | Bool false => Some "false"
  | Num z => Some (showZ z)
  | Str s => Some s
  | Arr items =>
      match allSome (map (fun x =>
                            match x with
                            | Undefined | Null => Some ""
                            | _ => printed x
                            end) items) with
      | Some parts => Some (joinComma parts)
      | None => None
      end
  | Obj fields =>
      match lookup "toString" fields with
      | Some _ => None
      | None => Some "[object Object]"
      end
  end.

(** The roll-call number of a vote as a template prints it. *)
Definition numberText (v : vote) : string :=
  match printed (number v) with
  | Some t => t
  | None => ""
  end.

(** The vote built from a Senate record whose fields print as given. *)
Definition senateMapped (s : settings) (v : value)
           (issue question r y n k : string) : vote :=
  {| chamber := Senate;
     number := field v "vote_number";
     date := field v "vote_date";
     title := trim issue ++ ": " ++ trim question;
     result := r ++ " (" ++ y ++ "-" ++ n ++ ")";
     key := "s-" ++ showZ (congress s) ++ "-" ++ showZ (session s) ++ "-" ++ k |}.

(** What makes a record mappable: it is an object (or any value but
    [null] and [undefined]) whose [issue] and [question] are strings, whose
    [counts] is neither [null] nor [undefined], and whose [result], tallies
    and number can be printed. *)
Definition mappable (v : value) (issue question r y n k : string) : Prop :=
  nullish v = false /\
  field v "issue" = Str issue /\
  field v "question" = Str question /\
  printed (field v "result") = Some r /\
  nullish (field v "counts") = false /\
  printed (field (field v "counts") "Yea") = Some y /\
  printed (field (field v "counts") "Nay") = Some n /\
  printed (field v "vote_number") = Some k.

(** The key of the specification: "s-<congress>-<session>-<number>" for
    the Senate, "h-<year>-<number>" for the House. *)
Definition keyFor (s : settings) (c : chamberName) (n : string) : string :=
  match c with
  | Senate => "s-" ++ showZ (congress s) ++ "-" ++ showZ (session s) ++ "-" ++ n
  | House =>
      "h-" ++ showZ (getYearForCongress (congress s) (session s)) ++ "-" ++ n
  end.

(** A vote of the batch is told by its chamber and its printed number. *)
Definition identity (v : vote) : chamberName * string := (chamber v, numberText v).

(** The text of the first element under [v] that the selector matches. *)
Definition textAt (sel : selector) (v : node) : option string :=
  option_map textContent (querySelector sel v).

(** An absent text prints as [undefined]. *)
Definition orUndefined (t : option string) : string :=
  match t with
  | Some s => s
  | None => "undefined"
  end.

(** The body parsed, and [roll_calls] or [roll_calls.roll_call] is absent,
    [null], [false], [0] or the empty string. *)
Definition noRollCalls (data : value) : bool :=
  negb (nullish data)
  && (negb (truthy (field data "roll_calls"))
      || negb (truthy (field (field data "roll_calls") "roll_call"))).

(** Where an entry ranks in a descending order by date: at its time value,
    or at the place a sentinel gives to invalid dates. *)
Inductive rank : Type :=
| Oldest
| At (t : Z)
| Newest.

Definition rankOf (sentinel : rank) (time : option Z) : rank :=
  match time with
  | Some t => At t
  | None => sentinel
  end.

(** [a] may stand before [b] in a descending order. *)
Definition notBefore (a b : rank) : bool :=
  match a, b with
  | Newest, _ => true
  | _, Oldest => true
  | At x, At y => y <=? x
  | _, _ => false
  end.

Fixpoint isDescending (ranks : list rank) : bool :=
  match ranks with
  | a :: (b :: _) as rest => notBefore a b && isDescending rest
  | _ => true
  end.

Section Failures.

Variable fetch : string -> fetched.
Variable JSON_parse : string -> option value.
Variable parseFromString : string -> document.
Variable typeErrorMessage : string -> string.
Variable localTZA : Z -> Z.
Variable legacyParse : string -> option Z.

(** The fatal errors of a branch and the message of each: the request
    fails on the network (before or while the body arrives), the status is
    not 2xx, the body cannot be parsed. *)
Inductive broken (label : string) (unparseable : string -> option string)
  : fetched -> string -> Prop :=
| broken_network name msg :
    broken label unparseable (Rejected name msg) (networkFailure label name msg)
| broken_body status e :
    broken label unparseable (Response status (Throw e))
           (message typeErrorMessage e)
| broken_status status text :
    ok status = false ->
    broken label unparseable (Response status (Normal text))
           (httpFailure label status text)
| broken_parse status text m :
    ok status = true ->
    unparseable text = Some m ->
    broken label unparseable (Response status (Normal text)) m.

Definition invalidJsonBody (text : string) : option string :=
  match JSON_parse text with
  | Some _ => None
  | None => Some (invalidJson "Senate Votes" text)
  end.

Definition malformedXmlBody (text : string) : option string :=
  match docQuerySelector (ByTag "parsererror") (parseFromString text) with
  | Some err => Some (xmlParseError "House Votes" err)
  | None => None
  end.

Definition senateBroken (s : settings) (m : string) : Prop :=
  broken "Senate Votes" invalidJsonBody
         (fetch (senateMenuUrl (congress s) (session s))) m.

Definition houseBroken (s : settings) (m : string) : Prop :=
  broken "House Votes" malformedXmlBody
         (fetch (HOUSE_ROLLS_INDEX (getYearForCongress (congress s) (session s)))) m.

(** What a selected branch gathers when it completes; a branch that is not
    selected gathers nothing. *)
Definition senateGathers (s : settings) (log : list effect) (vs : list vote) : Prop :=
  (if includeSenate s then senateBranch fetch JSON_parse s else ret [])
  = (log, Normal vs).

Definition houseGathers (s : settings) (log : list effect) (vs : list vote) : Prop :=
  (if includeHouse s then houseBranch fetch parseFromString s else ret [])
  = (log, Normal vs).

(** The time value of the date of a vote. *)
Definition timeOf (v : vote) : completion (option Z) :=
  JSDate.construct localTZA legacyParse (date v).

(** The same for display: [None] for an invalid date. *)
Definition timeValue (v : vote) : option Z :=
  match timeOf v with
  | Normal t => t
  | Throw _ => None
  end.

End Failures.

End Spec.

(* ================================================================== *)
(** ** Scenarios: concrete feeds, settings and engines *)

Module Scenario.

Import DOM App.

(** Writes a body with apostrophes where JSON has quotation marks. *)
Fixpoint dq (s : string) : string :=
  match s with
  | EmptyString => EmptyString
  | String c rest =>
      String (if Ascii.eqb c "'" then Reader.quoteMark else c) (dq rest)
  end.

Definition both : settings :=
  {| congress := 118; session := 2; includeHouse := true; includeSenate := true |}.

Definition senateOnly : settings :=
  {| congress := 118; session := 2; includeHouse := false; includeSenate := true |}.

Definition neither : settings :=
  {| congress := 118; session := 2; includeHouse := false; includeSenate := false |}.

Definition idle : state := {| votes := []; loading := false; error := None |}.

(** The roll-call record of the specification's Senate scenario. *)
Definition senateRecord : value :=
  Obj [("vote_number", Num 5); ("vote_date", Str "2024-03-01");
       ("issue", Str " HR1 "); ("question", Str " On Passage ");
       ("result", Str "Agreed to");
       ("counts", Obj [("Yea", Num 60); ("Nay", Num 40)])].

Definition senateBody : string :=
  dq "{'roll_calls': {'roll_call': [{'vote_number': 5, 'vote_date': '2024-03-01', 'issue': ' HR1 ', 'question': ' On Passage ', 'result': 'Agreed to', 'counts': {'Yea': 60, 'Nay': 40}}]}}".

(** The element of the specification's House scenario. *)
Definition houseElement : node :=
  Element "rollcall-vote"
    [Element "action-date" [Text "2024-03-02"];
     Element "action-time" [Text "14:00"];
     Element "rollcall-num" [Text "10"];
     Element "vote-question" [Text "On Agreeing"];
     Element "vote-result" [Text "Passed"];
     Element "totals-by-vote"
       [Element "yea-total" [Text "200"]; Element "nay-total" [Text "150"]]].

Definition houseBody : string :=
  "<rollcall-votes><rollcall-vote><action-date>2024-03-02</action-date><action-time>14:00</action-time><rollcall-num>10</rollcall-num><vote-question>On Agreeing</vote-question><vote-result>Passed</vote-result><totals-by-vote><yea-total>200</yea-total><nay-total>150</nay-total></totals-by-vote></rollcall-vote></rollcall-votes>".

Definition senateVote5 : vote :=
  {| chamber := Senate; number := Num 5; date := Str "2024-03-01";
     title := "HR1: On Passage"; result := "Agreed to (60-40)";
     key := "s-118-2-5" |}.

Definition houseVote10 : vote :=
  {| chamber := House; number := Str "10"; date := Str "2024-03-02T14:00";
     title := "On Agreeing"; result := "Passed (200-150)";
     key := "h-2024-10" |}.

(** A Senate feed of two records, the second without [vote_date]. *)
Definition undatedSenateBody : string :=
  dq "{'roll_calls': {'roll_call': [{'vote_number': 5, 'vote_date': '2024-03-01', 'issue': ' HR1 ', 'question': ' On Passage ', 'result': 'Agreed to', 'counts': {'Yea': 60, 'Nay': 40}}, {'vote_number': 6, 'issue': 'HR2', 'question': 'On Passage', 'result': 'Rejected', 'counts': {'Yea': 40, 'Nay': 60}}]}}".

(** A Senate feed of one record without [vote_date]. *)
Definition oneUndatedSenateBody : string :=
  dq "{'roll_calls': {'roll_call': [{'vote_number': 6, 'issue': 'HR2', 'question': 'On Passage', 'result': 'Rejected', 'counts': {'Yea': 40, 'Nay': 60}}]}}".

(** A House feed of one roll call without date and time. *)
Definition undatedHouseBody : string :=
  "<rollcall-votes><rollcall-vote><rollcall-num>11</rollcall-num><vote-question>On Passage</vote-question><vote-result>Failed</vote-result><totals-by-vote><yea-total>150</yea-total><nay-total>200</nay-total></totals-by-vote></rollcall-vote></rollcall-votes>".

(** A Senate feed that repeats a record. *)
Definition repeatedSenateBody : string :=
  dq "{'roll_calls': {'roll_call': [{'vote_number': 5, 'vote_date': '2024-03-01', 'issue': 'HR1', 'question': 'On Passage', 'result': 'Agreed to', 'counts': {'Yea': 60, 'Nay': 40}}, {'vote_number': 5, 'vote_date': '2024-03-01', 'issue': 'HR1', 'question': 'On Passage', 'result': 'Agreed to', 'counts': {'Yea': 60, 'Nay': 40}}]}}".

(** A Senate feed whose [roll_call] is one record, not a list of records. *)
Definition singleRecordBody : string :=
  dq "{'roll_calls': {'roll_call': {'vote_number': 5, 'vote_date': '2024-03-01', 'issue': 'HR1', 'question': 'On Passage', 'result': 'Agreed to', 'counts': {'Yea': 60, 'Nay': 40}}}}".

(** A Senate feed whose record lacks [issue] and [question]. *)
Definition bareRecordBody : string :=
  dq "{'roll_calls': {'roll_call': [{'vote_number': 5}]}}".

(** A proxy that answers the two paths with the given outcomes. *)
Definition network (senate house : fetched) (url : string) : fetched :=
  if (url =? "/api/senate/118/2")%string then senate
  else if (url =? "/api/house/2024")%string then house
  else Rejected "TypeError" "Failed to fetch".

Definition served (text : string) : fetched := Response 200 (Normal text).

(** An engine: the text of its [TypeError]s, UTC as local time, and no
    date heuristics outside the ISO format. *)
Definition engineMessage (site : string) : string := "TypeError: " ++ site.

Definition utc (t : Z) : Z := 0.

Definition isoOnly (s : string) : option Z := None.

(** [fetchVotes] in a browser with the reference readers. *)
Definition run (net : string -> fetched) (s : settings) : state * list effect :=
  fetchVotes net Reader.parseJson Reader.parseXml engineMessage utc isoOnly s idle.

(** The time values of the votes a run returns, in the order returned. *)
Definition timesOf (r : state * list effect) : list (option Z) :=
  map (Spec.timeValue utc isoOnly) (votes (fst r)).

(** The time value of a vote in this engine, 0 for an invalid date. *)
Definition timeHere (v : vote) : Z :=
  match Spec.timeValue utc isoOnly v with
  | Some t => t
  | None => 0
  end.

End Scenario.

(* ================================================================== *)
(** ** The rest of the page: settings store, helpers and what is shown *)

Module Page.

Import DOM App.

Definition LS_SETTINGS : string := "congress-vote-tracker:settings".

(** The number a property key stands for when it is an array index: a
    decimal numeral without leading zero, below 2^32 - 1. *)
Definition arrayIndex (k : string) : option Z :=
  match JSDate.number (list_ascii_of_string k) with
  | Some n =>
      if (showZ n =? k)%string && (n <? 4294967295) then Some n else None
  | None => None
  end.

Fixpoint hasKey (k : string) (fields : list (string * value)) : bool :=
  match fields with
  | [] => false
  | (k', _) :: rest => (k =? k')%string || hasKey k rest
  end.

(** Gives the property [k], which the object has, the value [v]. *)
Fixpoint update (k : string) (v : value) (fields : list (string * value))
  : list (string * value) :=
  match fields with
  | [] => []
  | (k', v') :: rest =>
      if (k =? k')%string then (k, v) :: rest else (k', v') :: update k v rest
  end.

(** Adds the index property [k] of number [n]: index keys come first, in
    ascending order. *)
Fixpoint insertIndex (n : Z) (k : string) (v : value)
         (fields : list (string * value)) : list (string * value) :=
  match fields with
  | [] => [(k, v)]
  | (k', v') :: rest =>
      match arrayIndex k' with
      | Some n' =>
          if n' <? n then (k', v') :: insertIndex n k v rest
          else (k, v) :: fields
      | None => (k, v) :: fields
      end
  end.

(** [CreateDataProperty] on an object whose fields are listed in property
    order: a key it has keeps its place, a new index key goes among the
    index keys, any other new key goes last. *)
Definition defineOwn (k : string) (v : value) (fields : list (string * value))
  : list (string * value) :=
  if hasKey k fields then update k v fields
  else
    match arrayIndex k with
    | Some n => insertIndex n k v fields
    | None => (fields ++ [(k, v)])%list
    end.

Fixpoint indexed (i : Z) (items : list value) : list (string * value) :=
  match items with
  | [] => []
  | x :: rest => (showZ i, x) :: indexed (i + 1) rest
  end.

Fixpoint characters (s : string) : list value :=
  match s with
  | EmptyString => []
  | String c rest => Str (String c EmptyString) :: characters rest
  end.

(** The own enumerable properties that [{...x}] copies. *)
Definition ownEntries (x : value) : list (string * value) :=
  match x with
  | Obj fields => fields
  | Arr items => indexed 0 items
  | Str s => indexed 0 (characters s)
  | _ => []
  end.

(** [{...target, ...x}], given the fields of [target]. *)
Definition spread (target : list (string * value)) (x : value)
  : list (string * value) :=
  fold_left (fun t kv => defineOwn (fst kv) (snd kv) t) (ownEntries x) target.

Definition defaults : list (string * value) :=
  [("congress", Num 118); ("session", Num 2);
   ("includeHouse", Bool true); ("includeSenate", Bool true)].

(** What the page does besides computing: writes to the store, dialogs. *)
Inductive pageEffect : Type :=
| SetItem (key text : string)
| Alert (text : string).

(** [Array.prototype.join(sep)] over already converted items. *)
Fixpoint joinWith (sep : string) (parts : list string) : string :=
  match parts with
  | [] => ""
  | [p] => p
  | p :: rest => p ++ sep ++ joinWith sep rest
  end.

(** Utility to combine class names. *)
Definition classNames (xs : list value) : completion string :=
  let! parts :=
    sequence
      (map (fun x =>
              match x with
              | Undefined | Null => Normal ""
              | _ => toString "xs.join" x
              end) (filter truthy xs)) in
  Normal (joinWith " " parts).

Section Browser.

(** [localStorage.getItem]: the stored text, [None] for [null], or a
    thrown error when the store cannot be read. *)
Variable getItem : string -> completion (option string).

(** [localStorage.setItem], which throws when the store refuses. *)
Variable setItem : string -> string -> completion unit.

Variable JSON_parse : string -> option value.

Variable localTZA : Z -> Z.
Variable legacyParse : string -> option Z.

(** [d.toLocaleString(undefined, {...})] on a time value: the text depends
    on the locale of the browser. *)
Variable toLocaleString : Z -> string.

(** Helper to load settings from Local Storage. *)
Definition loadSettings : value :=
  match getItem LS_SETTINGS with
  | Normal (Some raw) =>
      if (raw =? "")%string then Obj defaults
      else
        match JSON_parse raw with
        | Some stored => Obj (spread defaults stored)
        | None => Obj defaults
        end
  | Normal None => Obj defaults
  | Throw _ => Obj defaults
  end.

(** [JSON.stringify(s)] as [setItem] stores it. *)
Definition stored (s : value) : string :=
  match JSON.serialize s with
  | Some t => t
  | None => "undefined"
  end.

(** Helper to save settings to Local Storage. *)
Definition saveSettings (s : value) : list pageEffect * completion unit :=
  ([SetItem LS_SETTINGS (stored s)], setItem LS_SETTINGS (stored s)).

(** [handleSave] of [SettingsPanel]. *)
Definition handleSave (s : value) : list pageEffect * completion unit :=
  match saveSettings s with
  | (log, Normal _) => ((log ++ [Alert "Settings saved!"])%list, Normal tt)
  | (log, Throw e) => (log, Throw e)
  end.

(** Formats an ISO date string into a more readable local format. *)
Definition fmtDate (iso : value) : completion string :=
  if negb (truthy iso) then Normal "N/A"
  else
    let! d := JSDate.construct localTZA legacyParse iso in
    match d with
    | None => toString "String(iso)" iso
    | Some t => Normal (toLocaleString t)
    end.

End Browser.

(** What [App] puts on the screen for a state: the alert with the error,
    the "No Votes Loaded" panel, one card per vote. *)
Record screen : Type := {
  alert : option string;
  emptyPanel : bool;
  cards : list vote
}.

Definition render (st : state) : screen :=
  {| alert :=
       match error st with
       | Some m => if (m =? "")%string then None else Some m
       | None => None
       end;
     emptyPanel :=
       negb (loading st)
       && (List.length (votes st) =? 0)%nat
       && match error st with
          | Some m => (m =? "")%string
          | None => true
          end;
     cards := votes st |}.

End Page.

(* ================================================================== *)
(** ** The page behind the proxy *)

Module Deployment.

Import App.

(** The response of a route as the page's [fetch] receives it. *)
Definition answer (r : Proxy.response) : fetched :=
  Response (Proxy.status r) (Normal (Proxy.body r)).

Section Stack.

Variable axios_get : string -> Proxy.upstream.
Variable JSON_parse : string -> option value.

(** The [fetch] of a page served with the proxy: the two paths built from
    the settings reach the two routes, with the path segments as route
    parameters. *)
Definition throughProxy (s : settings) (url : string) : fetched :=
  let year := getYearForCongress (congress s) (session s) in
  if (url =? senateMenuUrl (congress s) (session s))%string then
    answer (Proxy.getSenate axios_get JSON_parse
                            (showZ (congress s)) (showZ (session s)))
  else if (url =? HOUSE_ROLLS_INDEX year)%string then
    answer (Proxy.getHouse axios_get (showZ year))
  else Rejected "TypeError" "Failed to fetch".

End Stack.

End Deployment.

(* ================================================================== *)
(** ** More vocabulary *)

Module Spec2.

Import DOM App.

(** The requests a run may send, in order: the Senate's, then the
    House's, each only for a selected chamber. *)
Definition requestsFor (s : settings) : list effect :=
  ((if includeSenate s
    then [Fetch (senateMenuUrl (congress s) (session s))] else [])
   ++
   (if includeHouse s
    then [Fetch (HOUSE_ROLLS_INDEX (getYearForCongress (congress s) (session s)))]
    else []))%list.

(** Neither an array nor an object. *)
Definition primitive (v : value) : bool :=
  match v with
  | Arr _ | Obj _ => false
  | _ => true
  end.

(** [(c1, s1)] is before [(c2, s2)] in lexicographic order. *)
Definition lexLt (c1 s1 c2 s2 : Z) : Prop :=
  c1 < c2 \/ (c1 = c2 /\ s1 < s2).

(** The regions of the screen that show something. *)
Definition shown (sc : Page.screen) : nat :=
  ((match Page.alert sc with Some _ => 1 | None => 0 end)
   + (if Page.emptyPanel sc then 1 else 0)
   + (match Page.cards sc with [] => 0 | _ => 1 end))%nat.

End Spec2.

(* ================================================================== *)
(** ** More scenarios *)

Module Scenario2.

Import DOM App Scenario.

Definition houseAlone : settings :=
  {| congress := 118; session := 2; includeHouse := true; includeSenate := false |}.

(** A Senate feed whose second record has only a number. *)
Definition mixedRecordsBody : string :=
  dq "{'roll_calls': {'roll_call': [{'vote_number': 5, 'vote_date': '2024-03-01', 'issue': ' HR1 ', 'question': ' On Passage ', 'result': 'Agreed to', 'counts': {'Yea': 60, 'Nay': 40}}, {'vote_number': 6}]}}".

(** A well-formed House feed in which a question quotes a
    [parsererror] element. *)
Definition quotedErrorBody : string :=
  "<rollcall-votes><rollcall-vote><rollcall-num>12</rollcall-num><vote-question><parsererror>sample</parsererror></vote-question></rollcall-vote></rollcall-votes>".

(** The Senate vote of the record without date of [undatedSenateBody]. *)
Definition senateVote6 : vote :=
  {| chamber := Senate; number := Num 6; date := Undefined;
     title := "HR2: On Passage"; result := "Rejected (40-60)";
     key := "s-118-2-6" |}.


(** Government servers that answer every request the same way. *)
Definition always (u : Proxy.upstream) (url : string) : Proxy.upstream := u.

End Scenario2.

(* ================================================================== *)
(** * Properties *)

(** ** The sort *)

Module SortFacts.

Import JSArray.

Section AnyComparator.

Context {A : Type}.
Variable comparefn : A -> A -> completion (option Z).

Lemma insert_Permutation (x : A) (sorted r : list A) :
  insert comparefn x sorted = Normal r -> Permutation (x :: sorted) r.
Proof.
  revert r; induction sorted as [|y rest IH]; simpl; intros r H.
  - injection H as <-. apply Permutation_refl.
  - unfold sortCompare in H.
    destruct (comparefn y x) as [v|e]; simpl in H; [|discriminate].
    destruct (_ >? 0).
    + destruct (insert comparefn x rest) as [r'|e]; simpl in H; [|discriminate].
      injection H as <-.
      eapply perm_trans; [apply perm_swap|].
      apply perm_skip, IH; reflexivity.
    + injection H as <-. apply Permutation_refl.
Qed.

Lemma insertAll_Permutation (items sorted r : list A) :
  insertAll comparefn sorted items = Normal r ->
  Permutation (List.rev sorted ++ items) (List.rev r).
Proof.
  revert sorted r; induction items as [|x rest IH]; simpl; intros sorted r H.
  - injection H as <-. rewrite app_nil_r. apply Permutation_refl.
  - destruct (insert comparefn x sorted) as [sorted'|e] eqn:E; simpl in H;
      [|discriminate].
    apply IH in H.
    eapply perm_trans; [|exact H].
    apply insert_Permutation in E.
    change (x :: rest) with ([x] ++ rest)%list.
    rewrite app_assoc.
    apply Permutation_app_tail.
    rewrite <- (Permutation_rev sorted'), <- E.
    rewrite <- (Permutation_rev sorted).
    apply Permutation_sym, Permutation_cons_append.
Qed.

(** Whatever the comparator answers, a sort that completes returns the
    items it was given. *)
Lemma sort_Permutation (items r : list A) :
  sort comparefn items = Normal r -> Permutation items r.
Proof.
  unfold sort; intros H.
  destruct (insertAll comparefn [] items) as [b|e] eqn:E; simpl in H;
    [|discriminate].
  injection H as <-.
  apply insertAll_Permutation in E. exact E.
Qed.

(** A comparator that does not throw on the items lets the sort complete. *)
Lemma insert_completes (x : A) (sorted : list A) :
  (forall y, In y sorted -> exists v, comparefn y x = Normal v) ->
  exists r, insert comparefn x sorted = Normal r.
Proof.
  induction sorted as [|y rest IH]; simpl; intros H.
  - eexists; reflexivity.
  - destruct (H y (or_introl eq_refl)) as [v Hv].
    unfold sortCompare; rewrite Hv; simpl.
    destruct (_ >? 0); [|eexists; reflexivity].
    destruct IH as [r' Hr']; [intros; apply H; now right|].
    rewrite Hr'; simpl. eexists; reflexivity.
Qed.

Lemma insertAll_completes (items sorted : list A) :
  (forall x y, In x (sorted ++ items) -> In y (sorted ++ items) ->
               exists v, comparefn x y = Normal v) ->
  exists r, insertAll comparefn sorted items = Normal r.
Proof.
  revert sorted; induction items as [|x rest IH]; simpl; intros sorted H.
  - eexists; reflexivity.
  - destruct (insert_completes x sorted) as [sorted' E].
    { intros y Hy. apply H; apply in_or_app; [now left|right; now left]. }
    rewrite E; simpl. apply IH.
    pose proof (insert_Permutation _ _ _ E) as P.
    assert (Q : forall z, In z (sorted' ++ rest) -> In z (sorted ++ x :: rest)).
    { intros z Hz. apply in_app_or in Hz as [Hz|Hz].
      - apply (Permutation_in _ (Permutation_sym P)) in Hz as [->|Hz];
          apply in_or_app; [right; now left|now left].
      - apply in_or_app; right; now right. }
    intros a b Ha Hb. apply H; apply Q; assumption.
Qed.

Lemma sort_completes (items : list A) :
  (forall x y, In x items -> In y items -> exists v, comparefn x y = Normal v) ->
  exists r, sort comparefn items = Normal r.
Proof.
  intros H. destruct (insertAll_completes items []) as [b E]; [exact H|].
  unfold sort; rewrite E; simpl. eexists; reflexivity.
Qed.

End AnyComparator.

Section ByKey.

Context {A : Type}.
Variable comparefn : A -> A -> completion (option Z).

Variable key : A -> Z.

Local Abbreviation keyed := (JSArray.keyed comparefn key).
Local Abbreviation ascending := (JSArray.ascending key).
Local Abbreviation descending := (JSArray.descending key).
Local Abbreviation sameKey := (JSArray.sameKey key).

Lemma insert_keyed (x : A) (sorted : list A) :
  (forall y, In y sorted -> comparefn y x = Normal (Some (key x - key y))) ->
  StronglySorted ascending sorted ->
  exists r,
    insert comparefn x sorted = Normal r /\
    StronglySorted ascending r /\
    forall t, filter (sameKey t) r
              = (filter (sameKey t) [x] ++ filter (sameKey t) sorted)%list.
Proof.
  induction sorted as [|y rest IH]; intros Hc Hs.
  - exists [x]; repeat split.
    + repeat constructor.
    + intros t; simpl. now rewrite app_nil_r.
  - simpl. unfold sortCompare. rewrite (Hc y (or_introl eq_refl)); simpl.
    apply StronglySorted_inv in Hs as [Hs Hy].
    destruct (Z.gtb_spec (key x - key y) 0) as [G|G].
    + destruct IH as (r & E & S & F); [intros; apply Hc; now right|exact Hs|].
      rewrite E; simpl. exists (y :: r); repeat split.
      * constructor; [exact S|].
        pose proof (insert_Permutation _ _ _ _ E) as P.
        rewrite <- P. constructor; [unfold JSArray.ascending; lia|exact Hy].
      * intros t. simpl. rewrite F. simpl.
        destruct (sameKey t y) eqn:Ey, (sameKey t x) eqn:Ex;
          simpl; try reflexivity.
        unfold JSArray.sameKey in Ey, Ex. apply Z.eqb_eq in Ey, Ex. lia.
    + exists (x :: y :: rest); repeat split.
      * constructor; [constructor; assumption|].
        constructor; [unfold JSArray.ascending; lia|].
        eapply Forall_impl; [|exact Hy].
        unfold JSArray.ascending; intros; lia.
      * intros t. simpl. destruct (sameKey t x); reflexivity.
Qed.

Lemma insertAll_keyed (items sorted : list A) :
  keyed (sorted ++ items) ->
  StronglySorted ascending sorted ->
  exists r,
    insertAll comparefn sorted items = Normal r /\
    StronglySorted ascending r /\
    forall t, filter (sameKey t) (List.rev r)
              = (filter (sameKey t) (List.rev sorted)
                 ++ filter (sameKey t) items)%list.
Proof.
  revert sorted; induction items as [|x rest IH]; intros sorted Hk Hs.
  - exists sorted; repeat split; [exact Hs|].
    intros t; simpl; now rewrite app_nil_r.
  - simpl.
    destruct (insert_keyed x sorted) as (sorted' & E & S & F).
    { intros y Hy. rewrite (Hk y x); [reflexivity| |];
        apply in_or_app; [now left|right; now left]. }
    { exact Hs. }
    rewrite E; simpl.
    pose proof (insert_Permutation _ _ _ _ E) as P.
    destruct (IH sorted') as (r & E' & S' & F').
    { intros a b Ha Hb.
      assert (Q : forall z, In z (sorted' ++ rest) -> In z (sorted ++ x :: rest)).
      { intros z Hz. apply in_app_or in Hz as [Hz|Hz].
        - apply (Permutation_in _ (Permutation_sym P)) in Hz as [->|Hz];
            apply in_or_app; [right; now left|now left].
        - apply in_or_app; right; now right. }
      apply Hk; apply Q; assumption. }
    { exact S. }
    exists r; repeat split; [exact E'|exact S'|].
    intros t. rewrite F'.
    rewrite !filter_rev, F, rev_app_distr, <- !filter_rev.
    rewrite <- app_assoc. f_equal.
    simpl. destruct (sameKey t x); reflexivity.
Qed.

Lemma ascending_rev (l : list A) :
  StronglySorted ascending l -> StronglySorted descending (List.rev l).
Proof.
  induction 1 as [|a l Hs IH Ha]; simpl; [constructor|].
  assert (G : forall m, StronglySorted descending m ->
                        Forall (fun b => descending b a) m ->
                        StronglySorted descending (m ++ [a])).
  { induction m as [|b m IHm]; simpl; intros Hm Hb.
    - repeat constructor.
    - apply StronglySorted_inv in Hm as [Hm Hbm].
      inversion Hb; subst.
      constructor; [apply IHm; assumption|].
      apply Forall_app; split; [exact Hbm|].
      constructor; [assumption|constructor]. }
  apply G; [exact IH|].
  apply Forall_rev. exact Ha.
Qed.

(** With dates that all parse, the sort completes, and its result is the
    input in descending order of [key], items of equal key in their
    original order. *)
Lemma sort_keyed (items : list A) :
  keyed items ->
  exists r,
    sort comparefn items = Normal r /\
    Permutation items r /\
    StronglySorted descending r /\
    forall t, filter (sameKey t) r = filter (sameKey t) items.
Proof.
  intros Hk.
  destruct (insertAll_keyed items []) as (b & E & S & F);
    [exact Hk|constructor|].
  exists (List.rev b).
  assert (E' : sort comparefn items = Normal (List.rev b))
    by (unfold sort; rewrite E; reflexivity).
  repeat split.
  - exact E'.
  - apply sort_Permutation with (comparefn := comparefn); exact E'.
  - apply ascending_rev; exact S.
  - intros t; rewrite F; reflexivity.
Qed.

End ByKey.

End SortFacts.

(** ** Values *)

Module ValueFacts.

Import Spec.

(** [toString] completes with the printed form, and throws a [TypeError]
    at its site when there is none. *)
Lemma toString_printed (site : string) (v : value) :
  toString site v
  = match printed v with
    | Some t => Normal t
    | None => Throw (TypeError site)
    end.
Proof.
  induction v as [| |b|z|s|items IH|fields _] using JS.value_nested_ind;
    try reflexivity.
  - destruct b; reflexivity.
  - simpl.
    assert (E : sequence
                  (map (fun x => match x with
                                 | Undefined | Null => Normal ""
                                 | _ => toString site x
                                 end) items)
                = match allSome
                          (map (fun x => match x with
                                         | Undefined | Null => Some ""
                                         | _ => printed x
                                         end) items) with
                  | Some parts => Normal parts
                  | None => Throw (TypeError site)
                  end).
    { induction IH as [|x rest Hx _ IHrest]; [reflexivity|].
      cbn [map sequence allSome].
      assert (Ex : match x with
                   | Undefined | Null => Normal ""
                   | _ => toString site x
                   end
                   = match match x with
                           | Undefined | Null => Some ""
                           | _ => printed x
                           end with
                     | Some t => Normal t
                     | None => Throw (TypeError site)
                     end)
        by (destruct x; try reflexivity; exact Hx).
      rewrite Ex, IHrest.
      destruct (match x with Undefined | Null => Some "" | _ => printed x end);
        [|reflexivity].
      simpl. destruct (allSome _); reflexivity. }
    rewrite E. destruct (allSome _); reflexivity.
  - simpl. destruct (lookup "toString" fields); reflexivity.
Qed.

Lemma get_field (site : string) (v : value) (name : string) :
  nullish v = false -> get site v name = Normal (field v name).
Proof.
  destruct v; simpl; try discriminate; try reflexivity.
  intros _. destruct (lookup name fields); reflexivity.
Qed.

Lemma get_nullish (site : string) (v : value) (name : string) :
  nullish v = true -> get site v name = Throw (TypeError site).
Proof.
  destruct v; simpl; try discriminate; reflexivity.
Qed.

End ValueFacts.

(** ** The two mappings and the year *)

Module MapFacts.

Import DOM App Spec Scenario ValueFacts.


(** Every vote the Senate mapping returns comes from a mappable record. *)
Lemma senateVote_inv (s : settings) (v : value) (vt : vote) :
  senateVote s v = Normal vt ->
  exists issue question r y n k,
    mappable v issue question r y n k /\
    vt = senateMapped s v issue question r y n k.
Proof.
  unfold senateVote. intros H.
  destruct (nullish v) eqn:Hv.
  { rewrite get_nullish in H by exact Hv. discriminate. }
  rewrite !(get_field _ v) in H by exact Hv.
  cbn [bind] in H.
  destruct (field v "issue") as [| | | |issue| |] eqn:Hi; try discriminate.
  cbn [bind callTrim] in H.
  destruct (field v "question") as [| | | |question| |] eqn:Hq; try discriminate.
  cbn [bind callTrim] in H.
  rewrite toString_printed in H.
  destruct (printed (field v "result")) as [r|] eqn:Hr; [|discriminate].
  cbn [bind] in H.
  destruct (nullish (field v "counts")) eqn:Hc.
  { rewrite get_nullish in H by exact Hc. discriminate. }
  rewrite !(get_field _ (field v "counts")) in H by exact Hc.
  cbn [bind] in H.
  rewrite !toString_printed in H.
  destruct (printed (field (field v "counts") "Yea")) as [y|] eqn:Hy;
    [|discriminate].
  cbn [bind] in H.
  destruct (printed (field (field v "counts") "Nay")) as [n|] eqn:Hn;
    [|discriminate].
  cbn [bind] in H.
  destruct (printed (field v "vote_number")) as [k|] eqn:Hk; [|discriminate].
  cbn [bind] in H.
  injection H as <-.
  exists issue, question, r, y, n, k.
  split; [|reflexivity].
  repeat split; assumption.
Qed.



(** The vote built from a House element, field by field. *)
Lemma houseVote_texts (year : Z) (v : node) :
  date (houseVote year v)
  = Str (orUndefined (textAt (ByTag "action-date") v) ++ "T"
         ++ orUndefined (textAt (ByTag "action-time") v))
  /\ number (houseVote year v)
     = match textAt (ByTag "rollcall-num") v with
       | Some t => Str t
       | None => Undefined
       end
  /\ title (houseVote year v)
     = match textAt (ByTag "vote-question") v with
       | Some t => if (t =? "")%string then "N/A" else t
       | None => "N/A"
       end
  /\ result (houseVote year v)
     = orUndefined (textAt (ByTag "vote-result") v) ++ " ("
       ++ orUndefined (textAt (ChildOf "totals-by-vote" "yea-total") v) ++ "-"
       ++ orUndefined (textAt (ChildOf "totals-by-vote" "nay-total") v) ++ ")"
  /\ key (houseVote year v)
     = "h-" ++ showZ year ++ "-" ++ orUndefined (textAt (ByTag "rollcall-num") v).
Proof.
  unfold houseVote, textAt; cbn [date number title result key].
  repeat split;
    repeat match goal with
           | |- context [querySelector ?sel v] => destruct (querySelector sel v)
           end;
    cbn [optText showText option_map orUndefined truthy]; try reflexivity.
  destruct (textContent n =? "")%string; reflexivity.
Qed.


(** C8.  For valid (congress, session) pairs, whose years are exact,
    [getYearForCongress] is [1789 + (congress-1)*2 + (session-1)]; it does
    not decrease along their lexicographic order; it gives 2023 and 2024
    for the two sessions of the 118th Congress. *)
Theorem getYearForCongress_monotone (c1 s1 c2 s2 : Z) :
  validPeriod c1 s1 ->
  validPeriod c2 s2 ->
  lexLe c1 s1 c2 s2 ->
  getYearForCongress c1 s1 = 1789 + (c1 - 1) * 2 + (s1 - 1)
  /\ getYearForCongress c1 s1 <= getYearForCongress c2 s2
  /\ getYearForCongress 118 1 = 2023
  /\ getYearForCongress 118 2 = 2024.
Proof.
  unfold validPeriod, lastCongress, lexLe, getYearForCongress.
  intros [H1 S1] [H2 S2] L. repeat split; lia.
Qed.

Lemma getYearForCongress_monotone_witness :
  getYearForCongress 117 2 = 2022
  /\ getYearForCongress 117 2 <= getYearForCongress 118 1.
Proof.
  destruct (getYearForCongress_monotone 117 2 118 1) as (E & L & _).
  - unfold validPeriod, lastCongress; lia.
  - unfold validPeriod, lastCongress; lia.
  - unfold lexLe; lia.
  - split; [rewrite E; reflexivity|exact L].
Defined.

(** C10, as the code has it.  The number of a vote is the roll-call number
    as the feed delivers it.  For a House vote it is the text of
    [rollcall-num], a string, or [undefined] without that element: never a
    number.  For a Senate vote it is the [vote_number] of the record,
    unchanged, so an integer exactly when the feed holds one. *)
Theorem number_as_delivered :
  (forall year v,
      number (houseVote year v)
      = match textAt (ByTag "rollcall-num") v with
        | Some t => Str t
        | None => Undefined
        end
      /\ isInteger (number (houseVote year v)) = false)
  /\ (forall s v vt,
         senateVote s v = Normal vt ->
         number vt = field v "vote_number"
         /\ isInteger (number vt) = isInteger (field v "vote_number")).
Proof.
  split.
  - intros year v.
    destruct (houseVote_texts year v) as (_ & N & _).
    split; [exact N|]. rewrite N.
    destruct (textAt (ByTag "rollcall-num") v); reflexivity.
  - intros s v vt H.
    apply senateVote_inv in H as (issue & question & r & y & n & k & _ & ->).
    split; reflexivity.
Qed.

Lemma number_as_delivered_witness :
  number senateVote5 = Num 5 /\ isInteger (number senateVote5) = true.
Proof.
  destruct (proj2 number_as_delivered both senateRecord senateVote5)
    as (N & I); [reflexivity|].
  split; [exact N|exact I].
Defined.

(** C10, as stated, fails.  The House vote of the specification has the
    string "10" as its number, a House element without [rollcall-num] has
    [undefined], and a Senate record whose [vote_number] is the string
    "n/a" keeps that string. *)
Lemma number_not_integer :
  number (houseVote 2024 houseElement) = Str "10"
  /\ isInteger (number (houseVote 2024 houseElement)) = false
  /\ number (houseVote 2024 (Element "rollcall-vote"
                               [Element "vote-question" [Text "On Agreeing"]]))
     = Undefined
  /\ denotesInteger
       (number (houseVote 2024 (Element "rollcall-vote"
                                  [Element "vote-question" [Text "On Agreeing"]])))
     = false
  /\ exists vt,
       senateVote both
         (Obj [("vote_number", Str "n/a"); ("vote_date", Str "2024-03-01");
               ("issue", Str "HR1"); ("question", Str "On Passage");
               ("result", Str "Agreed to");
               ("counts", Obj [("Yea", Num 60); ("Nay", Num 40)])])
       = Normal vt
       /\ number vt = Str "n/a"
       /\ denotesInteger (number vt) = false.
Proof.
  repeat split.
  eexists. repeat split.
Qed.

End MapFacts.

(** ** The client *)

Module ClientFacts.

Import DOM App Spec Scenario.

Section Client.

Variable fetch : string -> fetched.
Variable JSON_parse : string -> option value.
Variable parseFromString : string -> document.
Variable typeErrorMessage : string -> string.
Variable localTZA : Z -> Z.
Variable legacyParse : string -> option Z.

Local Abbreviation message := (App.message typeErrorMessage).
Local Abbreviation fetchJson := (App.fetchJson fetch JSON_parse).
Local Abbreviation fetchXml := (App.fetchXml fetch parseFromString).
Local Abbreviation senateBranch := (App.senateBranch fetch JSON_parse).
Local Abbreviation houseBranch := (App.houseBranch fetch parseFromString).
Local Abbreviation gather :=
  (App.gather fetch JSON_parse parseFromString localTZA legacyParse).
Local Abbreviation fetchVotes :=
  (App.fetchVotes fetch JSON_parse parseFromString typeErrorMessage
                  localTZA legacyParse).
Local Abbreviation senateBroken :=
  (Spec.senateBroken fetch JSON_parse typeErrorMessage).
Local Abbreviation houseBroken :=
  (Spec.houseBroken fetch parseFromString typeErrorMessage).
Local Abbreviation senateGathers := (Spec.senateGathers fetch JSON_parse).
Local Abbreviation houseGathers := (Spec.houseGathers fetch parseFromString).

Lemma fetchJson_broken (url m : string) :
  broken typeErrorMessage "Senate Votes" (invalidJsonBody JSON_parse) (fetch url) m ->
  exists e, fetchJson url "Senate Votes" = ([Fetch url], Throw e) /\ message e = m.
Proof.
  unfold App.fetchJson, invalidJsonBody. intros H.
  inversion H as [name msg E|status e E|status text Hok E|status text m' Hok Hp E];
    subst; simpl.
  - eexists; split; reflexivity.
  - exists e; split; reflexivity.
  - rewrite Hok; simpl. eexists; split; reflexivity.
  - rewrite Hok; simpl.
    destruct (JSON_parse text); [discriminate|].
    injection Hp as <-. eexists; split; reflexivity.
Qed.

Lemma fetchXml_broken (url m : string) :
  broken typeErrorMessage "House Votes" (malformedXmlBody parseFromString) (fetch url) m ->
  exists e, fetchXml url "House Votes" = ([Fetch url], Throw e) /\ message e = m.
Proof.
  unfold App.fetchXml, malformedXmlBody. intros H.
  inversion H as [name msg E|status e E|status text Hok E|status text m' Hok Hp E];
    subst; simpl.
  - eexists; split; reflexivity.
  - exists e; split; reflexivity.
  - rewrite Hok; simpl. eexists; split; reflexivity.
  - rewrite Hok; simpl.
    destruct (docQuerySelector _ _); [|discriminate].
    injection Hp as <-. eexists; split; reflexivity.
Qed.

Lemma senateBranch_broken (s : settings) (m : string) :
  senateBroken s m ->
  exists e,
    senateBranch s = ([Fetch (senateMenuUrl (congress s) (session s))], Throw e)
    /\ message e = m.
Proof.
  intros H. apply fetchJson_broken in H as (e & E & M).
  exists e; split; [|exact M].
  unfold App.senateBranch. rewrite E. reflexivity.
Qed.

Lemma houseBranch_broken (s : settings) (m : string) :
  houseBroken s m ->
  exists e,
    houseBranch s
    = ([Fetch (HOUSE_ROLLS_INDEX (getYearForCongress (congress s) (session s)))],
       Throw e)
    /\ message e = m.
Proof.
  intros H. apply fetchXml_broken in H as (e & E & M).
  exists e; split; [|exact M].
  unfold App.houseBranch. rewrite E. reflexivity.
Qed.

Lemma fetchVotes_throw (s : settings) (st : state) (log : list effect) (e : exn) :
  includeHouse s || includeSenate s = true ->
  gather s = (log, Throw e) ->
  fetchVotes s st
  = ({| votes := []; loading := false; error := Some (message e) |},
     (log ++ [ConsoleError e])%list).
Proof.
  intros Hsel Hg. unfold App.fetchVotes. rewrite Hg.
  destruct (includeHouse s), (includeSenate s); try discriminate; reflexivity.
Qed.

Lemma fetchVotes_normal (s : settings) (st : state) (log : list effect)
      (vs : list vote) :
  includeHouse s || includeSenate s = true ->
  gather s = (log, Normal vs) ->
  fetchVotes s st = ({| votes := vs; loading := false; error := None |}, log).
Proof.
  intros Hsel Hg. unfold App.fetchVotes. rewrite Hg.
  destruct (includeHouse s), (includeSenate s); try discriminate; reflexivity.
Qed.

Lemma gather_senate_throw (s : settings) (log : list effect) (e : exn) :
  includeSenate s = true ->
  senateBranch s = (log, Throw e) ->
  gather s = (log, Throw e).
Proof.
  intros Hs Hb. unfold App.gather. rewrite Hs, Hb. reflexivity.
Qed.

Lemma gather_house_throw (s : settings) (logS logH : list effect)
      (sv : list vote) (e : exn) :
  senateGathers s logS sv ->
  includeHouse s = true ->
  houseBranch s = (logH, Throw e) ->
  gather s = ((logS ++ logH)%list, Throw e).
Proof.
  unfold Spec.senateGathers. intros Hs Hh Hb.
  unfold App.gather. rewrite Hs, Hh, Hb. reflexivity.
Qed.

Lemma gather_sort (s : settings) (logS logH : list effect) (sv hv : list vote) :
  senateGathers s logS sv ->
  houseGathers s logH hv ->
  gather s
  = ((logS ++ logH)%list,
     JSArray.sort (byDateDescending localTZA legacyParse) (sv ++ hv)%list).
Proof.
  unfold Spec.senateGathers, Spec.houseGathers. intros Hs Hh.
  unfold App.gather. rewrite Hs, Hh. simpl. rewrite app_nil_r. reflexivity.
Qed.

Lemma sequence_map_inv {X Y} (f : X -> completion Y) (items : list X) (rs : list Y) :
  sequence (map f items) = Normal rs ->
  Forall (fun r => exists x, In x items /\ f x = Normal r) rs.
Proof.
  revert rs; induction items as [|x rest IH]; simpl; intros rs H.
  - injection H as <-. constructor.
  - destruct (f x) as [r|e] eqn:E; simpl in H; [|discriminate].
    destruct (sequence (map f rest)) as [rs'|e]; simpl in H; [|discriminate].
    injection H as <-. constructor.
    + exists x; split; [now left|exact E].
    + eapply Forall_impl; [|apply IH; reflexivity].
      intros r' (x' & I & E'). exists x'; split; [now right|exact E'].
Qed.

(** Every vote the Senate branch gathers was mapped from a record. *)
Lemma senateBranch_inv (s : settings) (log : list effect) (sv : list vote) :
  senateBranch s = (log, Normal sv) ->
  Forall (fun vt => exists v, senateVote s v = Normal vt) sv.
Proof.
  unfold App.senateBranch, App.fetchJson.
  destruct (fetch _) as [n m|st [text|e]]; simpl; try discriminate.
  destruct (ok st); simpl; try discriminate.
  destruct (JSON_parse text) as [data|]; simpl; try discriminate.
  destruct (get "data.roll_calls" data "roll_calls") as [rc|e];
    simpl; try discriminate.
  destruct (if truthy rc then _ else _) as [a|e]; simpl; try discriminate.
  destruct (truthy a); unfold lift; simpl.
  - destruct a; simpl; try discriminate.
    intros H. injection H as _ H.
    apply sequence_map_inv in H.
    eapply Forall_impl; [|exact H].
    intros vt (v & _ & E). exists v; exact E.
  - intros H. injection H as _ <-. constructor.
Qed.

(** Every vote the House branch gathers was mapped from an element, and
    the branch sends one request. *)
Lemma houseBranch_inv (s : settings) (log : list effect) (hv : list vote) :
  houseBranch s = (log, Normal hv) ->
  log = [Fetch (HOUSE_ROLLS_INDEX (getYearForCongress (congress s) (session s)))]
  /\ exists doc,
      hv = map (houseVote (getYearForCongress (congress s) (session s)))
               (docQuerySelectorAll (ByTag "rollcall-vote") doc).
Proof.
  unfold App.houseBranch, App.fetchXml.
  destruct (fetch _) as [n m|st [text|e]]; simpl; try discriminate.
  destruct (ok st); simpl; try discriminate.
  destruct (docQuerySelector _ _); simpl; try discriminate.
  intros H. injection H as <- <-.
  split; [reflexivity|]. eexists; reflexivity.
Qed.

(** A Senate body with a list of records that all map: the branch
    gathers the mapped votes, in the order of the feed. *)
Lemma senateBranch_gathers (s : settings) (status : Z) (text : string)
      (data : value) (items : list value) (sv : list vote) :
  fetch (senateMenuUrl (congress s) (session s)) = Response status (Normal text) ->
  ok status = true ->
  JSON_parse text = Some data ->
  field (field data "roll_calls") "roll_call" = Arr items ->
  sequence (map (senateVote s) items) = Normal sv ->
  senateBranch s = ([Fetch (senateMenuUrl (congress s) (session s))], Normal sv).
Proof.
  intros Hf Hok Hp Hr Hm.
  assert (Hrc : exists fields, field data "roll_calls" = Obj fields).
  { destruct (field data "roll_calls"); simpl in Hr; try discriminate.
    eexists; reflexivity. }
  destruct Hrc as [fields Hrc].
  assert (Hd : nullish data = false).
  { destruct data; simpl in Hrc; try discriminate; reflexivity. }
  unfold App.senateBranch, App.fetchJson.
  rewrite Hf; simpl. rewrite Hok; simpl. rewrite Hp; simpl.
  rewrite (ValueFacts.get_field _ data) by exact Hd. simpl.
  rewrite Hrc. simpl truthy. cbv iota.
  rewrite <- Hrc.
  rewrite (ValueFacts.get_field _ (field data "roll_calls"))
    by (rewrite Hrc; reflexivity).
  simpl. rewrite Hr. simpl. rewrite Hm. reflexivity.
Qed.

(** A House body that the parser accepts: the branch gathers the vote of
    every [rollcall-vote] element, in document order. *)
Lemma houseBranch_gathers (s : settings) (status : Z) (text : string) :
  let year := getYearForCongress (congress s) (session s) in
  fetch (HOUSE_ROLLS_INDEX year) = Response status (Normal text) ->
  ok status = true ->
  docQuerySelector (ByTag "parsererror") (parseFromString text) = None ->
  houseBranch s
  = ([Fetch (HOUSE_ROLLS_INDEX year)],
     Normal (map (houseVote year)
                 (docQuerySelectorAll (ByTag "rollcall-vote")
                                      (parseFromString text)))).
Proof.
  intros year Hf Hok Hp.
  unfold App.houseBranch, App.fetchXml. fold year.
  rewrite Hf; simpl. rewrite Hok; simpl. rewrite Hp. reflexivity.
Qed.

(** A Senate body without roll calls: no votes, one warning, no error. *)
Lemma senateBranch_noRollCalls (s : settings) (status : Z) (text : string)
      (data : value) :
  fetch (senateMenuUrl (congress s) (session s)) = Response status (Normal text) ->
  ok status = true ->
  JSON_parse text = Some data ->
  noRollCalls data = true ->
  senateBranch s
  = ([Fetch (senateMenuUrl (congress s) (session s));
      ConsoleWarn senateWarning data], Normal []).
Proof.
  intros Hf Hok Hp Hn.
  unfold noRollCalls in Hn.
  apply andb_true_iff in Hn as [Hd Hn].
  apply negb_true_iff in Hd.
  unfold App.senateBranch, App.fetchJson.
  rewrite Hf; simpl. rewrite Hok; simpl. rewrite Hp; simpl.
  rewrite (ValueFacts.get_field _ data) by exact Hd. simpl.
  destruct (truthy (field data "roll_calls")) eqn:Hrc; simpl in *.
  - assert (Hnn : nullish (field data "roll_calls") = false)
      by (destruct (field data "roll_calls"); simpl in *; congruence).
    rewrite (ValueFacts.get_field _ _ _ Hnn). simpl.
    apply negb_true_iff in Hn. rewrite Hn. reflexivity.
  - rewrite Hrc. reflexivity.
Qed.

(** The dates of House votes are strings, so comparing them never throws. *)
Lemma house_dates_compare (year : Z) (a b : node) :
  exists v,
    byDateDescending localTZA legacyParse (houseVote year a) (houseVote year b)
    = Normal v.
Proof.
  unfold byDateDescending, JSDate.minus. simpl. eexists; reflexivity.
Qed.

(** A run without error went through both selected branches and the sort. *)
Lemma fetchVotes_success_inv (s : settings) (st st' : state) (log : list effect) :
  fetchVotes s st = (st', log) ->
  error st' = None ->
  exists logS logH sv hv,
    senateGathers s logS sv /\
    houseGathers s logH hv /\
    JSArray.sort (byDateDescending localTZA legacyParse) (sv ++ hv)%list
    = Normal (votes st') /\
    log = (logS ++ logH)%list /\
    loading st' = false.
Proof.
  unfold App.fetchVotes.
  destruct (negb (includeHouse s) && negb (includeSenate s)).
  { intros H; injection H as <- _. discriminate. }
  destruct (gather s) as [log0 [vs|e]] eqn:G.
  2:{ intros H; injection H as <- _. discriminate. }
  intros H _. injection H as <- <-. simpl.
  unfold App.gather in G.
  destruct (if includeSenate s then _ else _) as [logS [sv|e]] eqn:ES;
    cbn [andThen] in G; [|discriminate].
  destruct (if includeHouse s then _ else _) as [logH [hv|e]] eqn:EH;
    cbn [andThen lift] in G; [|discriminate].
  injection G as <- G.
  exists logS, logH, sv, hv.
  repeat split; try assumption.
  now rewrite app_nil_r.
Qed.

Lemma append_cancel_l (p a b : string) : (p ++ a = p ++ b)%string -> a = b.
Proof.
  induction p as [|c p IH]; simpl; intros H; [exact H|].
  injection H as H. apply IH; exact H.
Qed.

Lemma keyFor_inj (s : settings) (c1 c2 : chamberName) (n1 n2 : string) :
  keyFor s c1 n1 = keyFor s c2 n2 -> c1 = c2 /\ n1 = n2.
Proof.
  destruct c1, c2; cbn [keyFor]; intros H;
    try (cbn [String.append] in H; discriminate).
  - split; [reflexivity|]. do 5 apply append_cancel_l in H. exact H.
  - split; [reflexivity|]. do 3 apply append_cancel_l in H. exact H.
Qed.

Lemma senateVote_key (s : settings) (v : value) (vt : vote) :
  senateVote s v = Normal vt ->
  key vt = keyFor s (chamber vt) (numberText vt).
Proof.
  intros H.
  apply MapFacts.senateVote_inv in H
    as (issue & question & r & y & n & k & (_ & _ & _ & _ & _ & _ & _ & Hk) & ->).
  unfold numberText, senateMapped; cbn [key chamber number keyFor].
  rewrite Hk. reflexivity.
Qed.

Lemma houseVote_key (s : settings) (e : node) :
  let vt := houseVote (getYearForCongress (congress s) (session s)) e in
  key vt = keyFor s (chamber vt) (numberText vt).
Proof.
  unfold houseVote, numberText; cbn [key chamber number keyFor].
  destruct (querySelector (ByTag "rollcall-num") e); reflexivity.
Qed.

Lemma NoDup_map_transfer {X Y W} (f : X -> Y) (g : X -> W) (l : list X) :
  (forall a b, In a l -> In b l -> f a = f b -> g a = g b) ->
  NoDup (map g l) -> NoDup (map f l).
Proof.
  induction l as [|x l IH]; simpl; intros H N; [constructor|].
  inversion N as [|? ? Hx Hl]; subst.
  constructor.
  - intros I. apply in_map_iff in I as (y & E & I).
    apply Hx. apply in_map_iff. exists y. split; [|exact I].
    apply H; [now right|now left|exact E].
  - apply IH; [|exact Hl].
    intros a b Ia Ib. apply H; now right.
Qed.

(** Every vote of a run without error has the key of its chamber and
    printed number. *)
Lemma fetchVotes_keys (s : settings) (st st' : state) (log : list effect) :
  fetchVotes s st = (st', log) ->
  error st' = None ->
  Forall (fun v => key v = keyFor s (chamber v) (numberText v)) (votes st').
Proof.
  intros H E.
  apply fetchVotes_success_inv in H as (logS & logH & sv & hv & GS & GH & S & _);
    [|exact E].
  apply SortFacts.sort_Permutation in S.
  eapply Permutation_Forall; [exact S|].
  apply Forall_app; split.
  - unfold Spec.senateGathers in GS.
    destruct (includeSenate s).
    + apply senateBranch_inv in GS.
      eapply Forall_impl; [|exact GS].
      intros vt (v & Hv). eapply senateVote_key; exact Hv.
    + injection GS as _ <-. constructor.
  - unfold Spec.houseGathers in GH.
    destruct (includeHouse s).
    + apply houseBranch_inv in GH as (_ & doc & ->).
      apply Forall_forall. intros vt I.
      apply in_map_iff in I as (e & <- & _).
      apply houseVote_key.
    + injection GH as _ <-. constructor.
Qed.

(** C1.  When a selected branch meets a network failure, a status outside
    2xx or a body that does not parse, [fetchVotes] ends with an empty
    list and one error message.  The message is that of the first failure:
    the Senate's when the Senate branch is broken, the House's when the
    Senate branch gathered its votes (or was not selected), and those votes
    are dropped. *)
Theorem fetchVotes_all_or_nothing (s : settings) (st : state) :
  (includeSenate s = true /\ exists m, senateBroken s m) \/
  (includeHouse s = true /\ exists m, houseBroken s m) ->
  exists m log,
    fetchVotes s st = ({| votes := []; loading := false; error := Some m |}, log)
    /\ (includeSenate s = true -> forall m1, senateBroken s m1 -> m = m1)
    /\ (includeHouse s = true ->
        forall logS sv m2, senateGathers s logS sv -> houseBroken s m2 -> m = m2).
Proof.
  intros H.
  assert (Hsel : includeHouse s || includeSenate s = true).
  { destruct H as [[-> _]|[-> _]]; [apply orb_true_r|reflexivity]. }
  destruct (includeSenate s) eqn:Hs.
  - destruct (senateBranch s) as [logS [sv|e]] eqn:Hb.
    + (* the Senate branch gathered its votes: the House branch is broken *)
      destruct H as [[_ [m Hm]]|[Hh [m Hm]]].
      { apply senateBranch_broken in Hm as (e & E & _). congruence. }
      destruct (houseBranch_broken _ _ Hm) as (e & E & M).
      assert (G : senateGathers s logS sv)
        by (unfold Spec.senateGathers; rewrite Hs; exact Hb).
      exists (message e); eexists.
      split; [|split].
      * apply fetchVotes_throw; [rewrite Hs; exact Hsel|].
        apply gather_house_throw with (sv := sv); eassumption.
      * intros _ m1 Hm1.
        apply senateBranch_broken in Hm1 as (e1 & E1 & _). congruence.
      * intros _ logS' sv' m2 _ Hm2.
        apply houseBranch_broken in Hm2 as (e2 & E2 & M2). congruence.
    + exists (message e); eexists.
      split; [|split].
      * apply fetchVotes_throw; [rewrite Hs; exact Hsel|].
        apply gather_senate_throw; eassumption.
      * intros _ m1 Hm1.
        apply senateBranch_broken in Hm1 as (e1 & E1 & M1). congruence.
      * intros _ logS' sv' m2 G _.
        unfold Spec.senateGathers in G. rewrite Hs in G. congruence.
  - destruct H as [[Hc _]|[Hh [m Hm]]]; [discriminate|].
    destruct (houseBranch_broken _ _ Hm) as (e & E & M).
    assert (G : senateGathers s [] [])
      by (unfold Spec.senateGathers; rewrite Hs; reflexivity).
    exists (message e); eexists.
    split; [|split].
    + apply fetchVotes_throw; [rewrite Hs; exact Hsel|].
      apply gather_house_throw with (sv := []); eassumption.
    + intros Hc; discriminate.
    + intros _ logS' sv' m2 _ Hm2.
      apply houseBranch_broken in Hm2 as (e2 & E2 & M2). congruence.
Qed.

(** C6.  With no chamber selected, [fetchVotes] sets the validation
    message, empties the list and sends no request. *)
Theorem fetchVotes_no_chamber (s : settings) (st : state) :
  includeHouse s = false ->
  includeSenate s = false ->
  fetchVotes s st
  = ({| votes := []; loading := loading st; error := Some chamberError |}, [])
  /\ filter isFetch (snd (fetchVotes s st)) = []
  /\ chamberError
     = "Please select at least one chamber (House or Senate) to fetch votes.".
Proof.
  intros Hh Hs. unfold App.fetchVotes. rewrite Hh, Hs. simpl.
  repeat split.
Qed.

(** C7, as the code has it.  When the Senate body parses to a value other
    than [null] in which [roll_calls] or [roll_calls.roll_call] is absent or
    falsy, the Senate branch gathers no vote and writes one warning; the
    run has no error, and the votes of a House branch that completes are
    all returned. *)
Theorem senate_without_roll_calls (s : settings) (st : state) (status : Z)
        (text : string) (data : value) :
  includeSenate s = true ->
  fetch (senateMenuUrl (congress s) (session s)) = Response status (Normal text) ->
  ok status = true ->
  JSON_parse text = Some data ->
  noRollCalls data = true ->
  let said := [Fetch (senateMenuUrl (congress s) (session s));
               ConsoleWarn senateWarning data] in
  senateBranch s = (said, Normal [])
  /\ (includeHouse s = false ->
      fetchVotes s st
      = ({| votes := []; loading := false; error := None |}, said))
  /\ (includeHouse s = true ->
      forall logH hv,
        houseBranch s = (logH, Normal hv) ->
        exists sorted,
          fetchVotes s st
          = ({| votes := sorted; loading := false; error := None |},
             (said ++ logH)%list)
          /\ Permutation hv sorted).
Proof.
  intros Hs Hf Hok Hp Hn said.
  pose proof (senateBranch_noRollCalls s status text data Hf Hok Hp Hn) as B.
  assert (GS : senateGathers s said [])
    by (unfold Spec.senateGathers; rewrite Hs; exact B).
  split; [exact B|split].
  - intros Hh.
    assert (GH : houseGathers s [] [])
      by (unfold Spec.houseGathers; rewrite Hh; reflexivity).
    rewrite (fetchVotes_normal s st (said ++ []) []).
    + rewrite app_nil_r. reflexivity.
    + rewrite Hs. apply orb_true_r.
    + rewrite (gather_sort s said [] [] [] GS GH). reflexivity.
  - intros Hh logH hv HB.
    assert (GH : houseGathers s logH hv)
      by (unfold Spec.houseGathers; rewrite Hh; exact HB).
    destruct (SortFacts.sort_completes
                (byDateDescending localTZA legacyParse) hv) as [sorted S].
    { apply houseBranch_inv in HB as (_ & doc & ->).
      intros x y Ix Iy.
      apply in_map_iff in Ix as (a & <- & _).
      apply in_map_iff in Iy as (b & <- & _).
      apply house_dates_compare. }
    exists sorted. split.
    + apply fetchVotes_normal; [rewrite Hs; apply orb_true_r|].
      rewrite (gather_sort s said logH [] hv GS GH). simpl. rewrite S.
      reflexivity.
    + eapply SortFacts.sort_Permutation; exact S.
Qed.

(** With dates that all parse, the run returns the gathered votes, most
    recent first, votes of equal date in the order gathered. *)
Lemma fetchVotes_sorted (s : settings) (st : state) (logS logH : list effect)
      (sv hv : list vote) (time : vote -> Z) :
  includeHouse s || includeSenate s = true ->
  senateGathers s logS sv ->
  houseGathers s logH hv ->
  (forall v, In v (sv ++ hv) ->
             timeOf localTZA legacyParse v = Normal (Some (time v))) ->
  exists sorted,
    fetchVotes s st
    = ({| votes := sorted; loading := false; error := None |},
       (logS ++ logH)%list)
    /\ Permutation (sv ++ hv) sorted
    /\ StronglySorted (JSArray.descending time) sorted
    /\ forall t, filter (JSArray.sameKey time t) sorted
                 = filter (JSArray.sameKey time t) (sv ++ hv).
Proof.
  intros Hsel GS GH Ht.
  destruct (SortFacts.sort_keyed (byDateDescending localTZA legacyParse) time
                                 (sv ++ hv))
    as (sorted & S & P & D & F).
  { intros x y Ix Iy. unfold byDateDescending, JSDate.minus.
    pose proof (Ht x Ix) as Hx. pose proof (Ht y Iy) as Hy.
    unfold timeOf in Hx, Hy. rewrite Hx, Hy. reflexivity. }
  exists sorted. repeat split; try assumption.
  apply fetchVotes_normal; [exact Hsel|].
  rewrite (gather_sort s logS logH sv hv GS GH), S. reflexivity.
Qed.

(** C9, as the code has it.  In a run without error two votes have the
    same key exactly when they are of the same chamber and their numbers
    print the same: a Senate key and a House key never collide, and the
    keys of the batch are unique when the feeds give each chamber distinct
    roll-call numbers. *)
Theorem keys_unique_with_numbers (s : settings) (st st' : state)
        (log : list effect) :
  fetchVotes s st = (st', log) ->
  error st' = None ->
  (forall a b,
      In a (votes st') -> In b (votes st') ->
      (key a = key b <-> identity a = identity b))
  /\ (NoDup (map identity (votes st')) -> NoDup (map key (votes st'))).
Proof.
  intros H E.
  pose proof (fetchVotes_keys s st st' log H E) as K.
  rewrite Forall_forall in K.
  assert (Q : forall a b, In a (votes st') -> In b (votes st') ->
                          key a = key b -> identity a = identity b).
  { intros a b Ia Ib Hk.
    rewrite (K a Ia), (K b Ib) in Hk.
    apply keyFor_inj in Hk as [Hc Hn].
    unfold identity. rewrite Hc, Hn. reflexivity. }
  split.
  - intros a b Ia Ib. split; [apply Q; assumption|].
    unfold identity. intros I. injection I as Hc Hn.
    rewrite (K a Ia), (K b Ib), Hc, Hn. reflexivity.
  - apply NoDup_map_transfer. exact Q.
Qed.

End Client.

(** The Senate answers, the House route returns 404: one error, no votes. *)
Lemma fetchVotes_all_or_nothing_witness :
  exists m log,
    run (network (served senateBody) (Response 404 (Normal "Not Found"))) both
    = ({| votes := []; loading := false; error := Some m |}, log)
    /\ m = "House Votes failed (HTTP 404). Not Found".
Proof.
  destruct (fetchVotes_all_or_nothing
              (network (served senateBody) (Response 404 (Normal "Not Found")))
              Reader.parseJson Reader.parseXml engineMessage utc isoOnly
              both idle) as (m & log & E & _ & F).
  - right. split; [reflexivity|].
    eexists. apply broken_status. reflexivity.
  - exists m, log. split; [exact E|].
    apply (F eq_refl [Fetch "/api/senate/118/2"] [senateVote5]).
    + vm_compute. reflexivity.
    + apply broken_status. reflexivity.
Defined.

Lemma fetchVotes_no_chamber_witness :
  run (network (served senateBody) (served houseBody)) neither
  = ({| votes := []; loading := false; error := Some chamberError |}, []).
Proof.
  apply (fetchVotes_no_chamber
           (network (served senateBody) (served houseBody))
           Reader.parseJson Reader.parseXml engineMessage utc isoOnly
           neither idle); reflexivity.
Defined.

(** A Senate body without [roll_calls], the House feed of the
    specification: the House vote is returned, with one warning. *)
Lemma senate_without_roll_calls_witness :
  exists sorted,
    run (network (served "{}") (served houseBody)) both
    = ({| votes := sorted; loading := false; error := None |},
       [Fetch "/api/senate/118/2"; ConsoleWarn senateWarning (Obj []);
        Fetch "/api/house/2024"])
    /\ Permutation [houseVote10] sorted.
Proof.
  destruct (senate_without_roll_calls
              (network (served "{}") (served houseBody))
              Reader.parseJson Reader.parseXml engineMessage utc isoOnly
              both idle 200 "{}" (Obj []))
    as (_ & _ & F); try reflexivity.
  apply (F eq_refl [Fetch "/api/house/2024"] [houseVote10]).
  vm_compute. reflexivity.
Defined.

(** C7, as stated, fails.  A body that is valid JSON and whose [roll_call]
    is malformed (one record instead of a list; a record without [issue])
    or whose [roll_calls] is absent because the body is [null] ends the
    run with an error: no warning is written, the House is not asked, and
    no vote is returned. *)
Lemma malformed_roll_call_is_fatal :
  (exists data, Reader.parseJson singleRecordBody = Some data)
  /\ run (network (served singleRecordBody) (served houseBody)) both
     = ({| votes := []; loading := false;
           error := Some "TypeError: data.roll_calls.roll_call.map" |},
        [Fetch "/api/senate/118/2";
         ConsoleError (TypeError "data.roll_calls.roll_call.map")])
  /\ (exists data, Reader.parseJson bareRecordBody = Some data)
  /\ run (network (served bareRecordBody) (served houseBody)) both
     = ({| votes := []; loading := false;
           error := Some "TypeError: v.issue.trim" |},
        [Fetch "/api/senate/118/2"; ConsoleError (TypeError "v.issue.trim")])
  /\ Reader.parseJson "null" = Some Null
  /\ run (network (served "null") (served houseBody)) both
     = ({| votes := []; loading := false;
           error := Some "TypeError: data.roll_calls" |},
        [Fetch "/api/senate/118/2"; ConsoleError (TypeError "data.roll_calls")]).
Proof.
  repeat split; try (eexists; vm_compute; reflexivity); vm_compute; reflexivity.
Qed.

(** The comparator on the two votes of the specification, in any time
    zone. *)
Lemma compare_scenario_votes (localTZA : Z -> Z) (legacyParse : string -> option Z) :
  byDateDescending localTZA legacyParse senateVote5 houseVote10
  = Normal (Some (1709388000000 - localTZA 1709388000000 - 1709251200000)).
Proof. reflexivity. Qed.

(** X20.  When every date parses, a run returns the votes of the selected
    branches in descending order of time value, votes of equal date in the
    order gathered.  For a vote whose date does not parse the comparator
    returns [NaN], which the sort reads as "equal", against every other
    vote.  The Senate vote of 2024-03-01 and the House vote of
    2024-03-02T14:00 come out House first, in every time zone (an offset
    from UTC of at most a day). *)
Theorem fetchVotes_sorted_by_date :
  (forall fetch JSON_parse parseFromString typeErrorMessage localTZA legacyParse
          s st logS logH sv hv (time : vote -> Z),
      includeHouse s || includeSenate s = true ->
      senateGathers fetch JSON_parse s logS sv ->
      houseGathers fetch parseFromString s logH hv ->
      (forall v, In v (sv ++ hv) ->
                 timeOf localTZA legacyParse v = Normal (Some (time v))) ->
      exists sorted,
        fetchVotes fetch JSON_parse parseFromString typeErrorMessage
                   localTZA legacyParse s st
        = ({| votes := sorted; loading := false; error := None |},
           (logS ++ logH)%list)
        /\ Permutation (sv ++ hv) sorted
        /\ StronglySorted (JSArray.descending time) sorted
        /\ forall t, filter (JSArray.sameKey time t) sorted
                     = filter (JSArray.sameKey time t) (sv ++ hv))
  /\ (forall localTZA legacyParse a b tb,
         timeOf localTZA legacyParse a = Normal None ->
         timeOf localTZA legacyParse b = Normal tb ->
         JSArray.sortCompare (byDateDescending localTZA legacyParse) a b = Normal 0
         /\ JSArray.sortCompare (byDateDescending localTZA legacyParse) b a
            = Normal 0)
  /\ (forall typeErrorMessage localTZA legacyParse st,
         (forall t, Z.abs (localTZA t) <= JSDate.msPerDay) ->
         fetchVotes (network (served senateBody) (served houseBody))
                    Reader.parseJson Reader.parseXml typeErrorMessage
                    localTZA legacyParse both st
         = ({| votes := [houseVote10; senateVote5]; loading := false;
               error := None |},
            [Fetch "/api/senate/118/2"; Fetch "/api/house/2024"])).
Proof.
  split; [|split].
  - intros. eapply fetchVotes_sorted; eassumption.
  - intros localTZA legacyParse a b tb Ha Hb.
    unfold JSArray.sortCompare, byDateDescending, JSDate.minus.
    unfold timeOf in Ha, Hb. rewrite Ha, Hb. simpl.
    destruct tb; split; reflexivity.
  - intros typeErrorMessage localTZA legacyParse st Htz.
    apply fetchVotes_normal; [reflexivity|].
    rewrite (gather_sort _ _ _ localTZA legacyParse both
                         [Fetch "/api/senate/118/2"] [Fetch "/api/house/2024"]
                         [senateVote5] [houseVote10]);
      [|vm_compute; reflexivity|vm_compute; reflexivity].
    simpl app.
    unfold JSArray.sort.
    cbn [JSArray.insertAll JSArray.insert bind].
    unfold JSArray.sortCompare.
    rewrite compare_scenario_votes. cbn [bind].
    pose proof (Htz 1709388000000) as B. unfold JSDate.msPerDay in B.
    destruct (Z.gtb_spec (1709388000000 - localTZA 1709388000000 - 1709251200000) 0);
      [reflexivity|lia].
Qed.

Lemma fetchVotes_sorted_by_date_witness :
  (exists sorted,
      run (network (served senateBody) (served houseBody)) both
      = ({| votes := sorted; loading := false; error := None |},
         [Fetch "/api/senate/118/2"; Fetch "/api/house/2024"])
      /\ StronglySorted (JSArray.descending timeHere) sorted)
  /\ votes (fst (run (network (served senateBody) (served houseBody)) both))
     = [houseVote10; senateVote5].
Proof.
  destruct fetchVotes_sorted_by_date as (G & _ & X).
  split.
  - destruct (G (network (served senateBody) (served houseBody))
                Reader.parseJson Reader.parseXml engineMessage utc isoOnly
                both idle
                [Fetch "/api/senate/118/2"] [Fetch "/api/house/2024"]
                [senateVote5] [houseVote10] timeHere)
      as (sorted & E & _ & D & _).
    + reflexivity.
    + vm_compute. reflexivity.
    + vm_compute. reflexivity.
    + intros v [<-|[<-|[]]]; reflexivity.
    + exists sorted. split; [exact E|exact D].
  - unfold run. rewrite (X engineMessage utc isoOnly idle); [reflexivity|].
    intros t. unfold utc, JSDate.msPerDay. simpl. lia.
Defined.

(** C4.  The sort misses the case of a date that does not parse, against
    the claim and against the comment of the code, "Sort all votes by date,
    most recent first".  With a Senate vote of 2024-03-01, a Senate vote
    without date and a House vote of 2024-03-02T14:00, the run returns the
    three in that order: the older vote stands before the newer one, and no
    place given to the invalid date makes the list descending.  Even with
    two votes, where every conforming sort must keep the order, an invalid
    date stays before a later date in one run and after an earlier date in
    another, so no fixed sentinel orders both runs. *)
Lemma unparsed_date_breaks_order :
  (let r := run (network (served undatedSenateBody) (served houseBody)) both in
   error (fst r) = None
   /\ timesOf r = [Some 1709251200000; None; Some 1709388000000]
   /\ ~ exists sentinel,
         isDescending (map (rankOf sentinel) (timesOf r)) = true)
  /\ (let r1 := run (network (served oneUndatedSenateBody) (served houseBody)) both in
      let r2 := run (network (served senateBody) (served undatedHouseBody)) both in
      error (fst r1) = None /\ error (fst r2) = None
      /\ timesOf r1 = [None; Some 1709388000000]
      /\ timesOf r2 = [Some 1709251200000; None]
      /\ ~ exists sentinel,
            isDescending (map (rankOf sentinel) (timesOf r1)) = true
            /\ isDescending (map (rankOf sentinel) (timesOf r2)) = true).
Proof.
  assert (T : timesOf (run (network (served undatedSenateBody) (served houseBody)) both)
              = [Some 1709251200000; None; Some 1709388000000])
    by (vm_compute; reflexivity).
  assert (T1 : timesOf (run (network (served oneUndatedSenateBody) (served houseBody)) both)
               = [None; Some 1709388000000])
    by (vm_compute; reflexivity).
  assert (T2 : timesOf (run (network (served senateBody) (served undatedHouseBody)) both)
               = [Some 1709251200000; None])
    by (vm_compute; reflexivity).
  split.
  - cbv zeta. split; [vm_compute; reflexivity|]. split; [exact T|].
    rewrite T. intros [sentinel H].
    destruct sentinel as [|x|]; simpl in H; try discriminate.
    apply andb_true_iff in H as [H1 H2].
    apply andb_true_iff in H2 as [H2 _].
    apply Z.leb_le in H1, H2. lia.
  - cbv zeta. split; [vm_compute; reflexivity|].
    split; [vm_compute; reflexivity|].
    split; [exact T1|]. split; [exact T2|].
    rewrite T1, T2. intros [sentinel [H1 H2]].
    destruct sentinel as [|x|]; simpl in H1, H2; try discriminate.
    apply andb_true_iff in H1 as [H1 _].
    apply andb_true_iff in H2 as [H2 _].
    apply Z.leb_le in H1, H2. lia.
Qed.

(** The two feeds of the specification: two votes, two keys. *)
Lemma keys_unique_with_numbers_witness :
  NoDup (map key (votes (fst (run (network (served senateBody) (served houseBody))
                                  both)))).
Proof.
  destruct (keys_unique_with_numbers
              (network (served senateBody) (served houseBody))
              Reader.parseJson Reader.parseXml engineMessage utc isoOnly
              both idle
              (fst (run (network (served senateBody) (served houseBody)) both))
              (snd (run (network (served senateBody) (served houseBody)) both)))
    as (_ & N).
  - vm_compute. reflexivity.
  - vm_compute. reflexivity.
  - apply N. vm_compute.
    constructor; [|constructor; [|constructor]]; simpl; intuition discriminate.
Defined.

(** C9, as stated, fails.  When the Senate feed lists roll call 5 twice,
    the run returns two votes with the key "s-118-2-5". *)
Lemma repeated_number_repeats_key :
  let r := run (network (served repeatedSenateBody) (served houseBody)) senateOnly in
  error (fst r) = None
  /\ map key (votes (fst r)) = ["s-118-2-5"; "s-118-2-5"]
  /\ ~ NoDup (map key (votes (fst r))).
Proof.
  assert (K : map key (votes (fst (run (network (served repeatedSenateBody)
                                               (served houseBody)) senateOnly)))
              = ["s-118-2-5"; "s-118-2-5"])
    by (vm_compute; reflexivity).
  cbv zeta. split; [vm_compute; reflexivity|]. split; [exact K|].
  rewrite K. intros N. inversion N as [|? ? I _]; subst.
  apply I. left. reflexivity.
Qed.

End ClientFacts.

(** ** The proxy *)

Module ProxyFacts.

Import Proxy Scenario.




End ProxyFacts.

(** ** Numerals, years and request paths *)

Module PathFacts.

Import App Spec Spec2.

Lemma showZ_inj (a b : Z) : showZ a = showZ b -> a = b.
Proof.
  unfold showZ. intros H.
  apply DecimalZ.to_int_inj.
  assert (N : forall z, Z.to_int z <> Decimal.Pos Decimal.Nil
                        /\ Z.to_int z <> Decimal.Neg Decimal.Nil).
  { intros z. destruct z as [|p|p]; simpl; split; try discriminate;
      intros E; injection E as E;
      exact (DecimalPos.Unsigned.to_uint_nonnil p E). }
  destruct (N a) as [A1 A2], (N b) as [B1 B2].
  pose proof (NilZero.isi (Z.to_int a) A1 A2) as Ia.
  pose proof (NilZero.isi (Z.to_int b) B1 B2) as Ib.
  rewrite H in Ia. rewrite Ia in Ib. injection Ib as Ib. exact Ib.
Qed.

Lemma uint_digits (u : Decimal.uint) (c : ascii) :
  In c (list_ascii_of_string (NilEmpty.string_of_uint u)) ->
  JSDate.digit c <> None.
Proof.
  induction u; simpl; intros H; try contradiction;
    destruct H as [<-|H]; try (apply IHu; exact H); discriminate.
Qed.

(** A printed integer is made of digits, after a minus sign if negative. *)
Lemma showZ_characters (z : Z) (c : ascii) :
  In c (list_ascii_of_string (showZ z)) -> JSDate.digit c <> None \/ c = "-"%char.
Proof.
  unfold showZ.
  assert (U : forall u, In c (list_ascii_of_string (NilZero.string_of_uint u)) ->
                        JSDate.digit c <> None).
  { intros u. destruct u;
      [simpl; intros [<-|[]]; discriminate|..];
      match goal with
      | |- In _ (list_ascii_of_string (NilZero.string_of_uint ?d)) -> _ =>
          exact (uint_digits d c)
      end. }
  destruct (Z.to_int z) as [u|u]; simpl.
  - intros H. left. apply (U u). exact H.
  - intros [<-|H]; [right; reflexivity|left; apply (U u); exact H].
Qed.

(** Two texts without a separator character, each followed by the
    separator: equal wholes have equal parts. *)
Lemma split_at_separator (x : ascii) (a b r r' : string) :
  ~ In x (list_ascii_of_string a) ->
  ~ In x (list_ascii_of_string b) ->
  (a ++ String x r = b ++ String x r')%string ->
  a = b /\ r = r'.
Proof.
  revert b; induction a as [|c a IH]; intros b Ha Hb H.
  - destruct b as [|d b]; simpl in H.
    + injection H as H. split; [reflexivity|exact H].
    + injection H as H _. exfalso. apply Hb. left. symmetry. exact H.
  - destruct b as [|d b]; simpl in H.
    + injection H as H _. exfalso. apply Ha. left. exact H.
    + injection H as Hc H.
      destruct (IH b) as [E R].
      * intros I. apply Ha. right. exact I.
      * intros I. apply Hb. right. exact I.
      * exact H.
      * subst. split; reflexivity.
Qed.

Lemma showZ_no_slash (z : Z) : ~ In "/"%char (list_ascii_of_string (showZ z)).
Proof.
  intros H. apply showZ_characters in H as [H|H]; [|discriminate].
  apply H. reflexivity.
Qed.

Lemma year_order (c1 s1 c2 s2 : Z) :
  validPeriod c1 s1 ->
  validPeriod c2 s2 ->
  (lexLt c1 s1 c2 s2 -> getYearForCongress c1 s1 < getYearForCongress c2 s2)
  /\ (getYearForCongress c1 s1 = getYearForCongress c2 s2 -> c1 = c2 /\ s1 = s2).
Proof.
  unfold validPeriod, lastCongress, lexLt, getYearForCongress.
  intros [H1 S1] [H2 S2]. split; lia.
Qed.

(** X1.  Among valid periods (congress 1 to the last one whose years are
    exact, session 1 or 2) a later (congress, session) has a later year, so
    a year stands for one session of one congress only. *)
Theorem getYearForCongress_strict (c1 s1 c2 s2 : Z) :
  validPeriod c1 s1 ->
  validPeriod c2 s2 ->
  (lexLt c1 s1 c2 s2 -> getYearForCongress c1 s1 < getYearForCongress c2 s2)
  /\ (getYearForCongress c1 s1 = getYearForCongress c2 s2 -> c1 = c2 /\ s1 = s2).
Proof. exact (year_order c1 s1 c2 s2). Qed.

Lemma getYearForCongress_strict_witness :
  getYearForCongress 117 2 < getYearForCongress 118 1.
Proof.
  apply (getYearForCongress_strict 117 2 118 1);
    unfold validPeriod, lastCongress, lexLt; lia.
Defined.

(** X2.  The two request paths tell the settings that built them: equal Senate
    paths mean the same congress and session, and among valid periods so
    do equal House paths; a Senate path is never a House path. *)
Theorem request_paths_injective (c1 s1 c2 s2 : Z) :
  (senateMenuUrl c1 s1 = senateMenuUrl c2 s2 -> c1 = c2 /\ s1 = s2)
  /\ (validPeriod c1 s1 -> validPeriod c2 s2 ->
      HOUSE_ROLLS_INDEX (getYearForCongress c1 s1)
      = HOUSE_ROLLS_INDEX (getYearForCongress c2 s2) ->
      c1 = c2 /\ s1 = s2)
  /\ senateMenuUrl c1 s1 <> HOUSE_ROLLS_INDEX (getYearForCongress c2 s2).
Proof.
  split; [|split].
  - unfold senateMenuUrl. intros H.
    apply ClientFacts.append_cancel_l in H.
    change (showZ c1 ++ "/" ++ showZ s1)%string
      with (showZ c1 ++ String "/" (showZ s1))%string in H.
    change (showZ c2 ++ "/" ++ showZ s2)%string
      with (showZ c2 ++ String "/" (showZ s2))%string in H.
    apply split_at_separator in H as [Hc Hs]; try apply showZ_no_slash.
    split; apply showZ_inj; assumption.
  - intros V1 V2 H. unfold HOUSE_ROLLS_INDEX in H.
    apply ClientFacts.append_cancel_l, showZ_inj in H.
    apply (year_order c1 s1 c2 s2 V1 V2). exact H.
  - unfold senateMenuUrl, HOUSE_ROLLS_INDEX. simpl. discriminate.
Qed.

Lemma request_paths_injective_witness :
  HOUSE_ROLLS_INDEX (getYearForCongress 118 1)
  <> HOUSE_ROLLS_INDEX (getYearForCongress 118 2).
Proof.
  intros H.
  destruct (request_paths_injective 118 1 118 2) as (_ & F & _).
  destruct F as [_ F];
    [unfold validPeriod, lastCongress; lia
    |unfold validPeriod, lastCongress; lia|exact H|].
  discriminate F.
Defined.

End PathFacts.

(** ** The settings store, the helpers and the screen *)

Module PageFacts.

Import DOM App Spec Spec2 Page Scenario.

Lemma hasKey_lookup (k : string) (fields : list (string * value)) :
  hasKey k fields = false <-> lookup k fields = None.
Proof.
  induction fields as [|[k' v'] rest IH]; simpl; [tauto|].
  destruct (k =? k')%string; simpl; [split; discriminate|exact IH].
Qed.

Lemma lookup_app (k : string) (a b : list (string * value)) :
  lookup k (a ++ b)
  = match lookup k a with
    | Some v => Some v
    | None => lookup k b
    end.
Proof.
  induction a as [|[k' v'] rest IH]; simpl; [reflexivity|].
  destruct (k =? k')%string; [reflexivity|exact IH].
Qed.

Lemma lookup_update (k k' : string) (v : value) (fields : list (string * value)) :
  hasKey k' fields = true ->
  lookup k (update k' v fields)
  = if (k =? k')%string then Some v else lookup k fields.
Proof.
  induction fields as [|[kf vf] rest IH]; simpl; [discriminate|].
  destruct (String.eqb_spec k' kf) as [->|N]; simpl.
  - intros _. destruct (k =? kf)%string; reflexivity.
  - intros H. rewrite (IH H).
    destruct (String.eqb_spec k kf) as [->|N'];
      destruct (String.eqb_spec kf k'); try reflexivity; congruence.
Qed.

Lemma lookup_insertIndex (n : Z) (k k' : string) (v : value)
      (fields : list (string * value)) :
  hasKey k' fields = false ->
  lookup k (insertIndex n k' v fields)
  = if (k =? k')%string then Some v else lookup k fields.
Proof.
  induction fields as [|[kf vf] rest IH]; simpl; [reflexivity|].
  intros H. apply orb_false_iff in H as [Hk Hr].
  apply String.eqb_neq in Hk.
  destruct (arrayIndex kf) as [n'|]; [destruct (n' <? n)|]; simpl;
    try reflexivity.
  rewrite (IH Hr).
  destruct (String.eqb_spec k kf) as [->|N'];
    destruct (String.eqb_spec kf k'); try reflexivity; congruence.
Qed.

(** Insert, then look up: the defined key has the new value, every other
    key what it had. *)
Lemma lookup_defineOwn (k k' : string) (v : value) (fields : list (string * value)) :
  lookup k (defineOwn k' v fields)
  = if (k =? k')%string then Some v else lookup k fields.
Proof.
  unfold defineOwn. destruct (hasKey k' fields) eqn:H.
  - apply lookup_update; exact H.
  - destruct (arrayIndex k') as [n|].
    + apply lookup_insertIndex; exact H.
    + rewrite lookup_app. simpl.
      destruct (String.eqb_spec k k') as [->|N].
      * apply hasKey_lookup in H. rewrite H. reflexivity.
      * destruct (lookup k fields); reflexivity.
Qed.

Lemma lookup_spread_entries (k : string) (entries target : list (string * value)) :
  lookup k (fold_left (fun t kv => defineOwn (fst kv) (snd kv) t) entries target)
  = match lookup k (List.rev entries) with
    | Some v => Some v
    | None => lookup k target
    end.
Proof.
  revert target; induction entries as [|[k' v'] rest IH]; intros target;
    simpl; [reflexivity|].
  rewrite IH, lookup_app, lookup_defineOwn. simpl.
  destruct (lookup k (List.rev rest)); [reflexivity|].
  destruct (k =? k')%string; reflexivity.
Qed.

Lemma lookup_rev_unique (k : string) (fields : list (string * value)) :
  NoDup (map fst fields) -> lookup k (List.rev fields) = lookup k fields.
Proof.
  induction fields as [|[k' v'] rest IH]; simpl; [reflexivity|].
  intros N. inversion N as [|? ? Hn Hr]; subst.
  rewrite lookup_app, (IH Hr). simpl.
  destruct (String.eqb_spec k k') as [->|_].
  - assert (E : lookup k' rest = None).
    { apply hasKey_lookup. destruct (hasKey k' rest) eqn:H; [|reflexivity].
      exfalso. apply Hn. clear - H.
      induction rest as [|[a b] rest IH]; simpl in *; [discriminate|].
      apply orb_true_iff in H as [H|H].
      - left. apply String.eqb_eq in H. symmetry. exact H.
      - right. apply IH. exact H. }
    rewrite E. reflexivity.
  - destruct (lookup k rest); reflexivity.
Qed.

Section Browser.

Variable getItem : string -> completion (option string).
Variable setItem : string -> string -> completion unit.
Variable JSON_parse : string -> option value.

Local Abbreviation loadSettings := (Page.loadSettings getItem JSON_parse).

(** X3.  [loadSettings] never fails and always returns an object that holds the
    four settings; it returns the defaults themselves when the store cannot
    be read, holds nothing or an empty text under the key, or holds text
    that is not JSON or JSON without properties ([null], a number, [{}]). *)
Theorem loadSettings_always_settings :
  (exists fields,
      loadSettings = Obj fields /\
      forall k, hasKey k defaults = true -> lookup k fields <> None)
  /\ ((forall raw, getItem LS_SETTINGS = Normal (Some raw) ->
                   raw = "" \/ JSON_parse raw = None
                   \/ exists x, JSON_parse raw = Some x /\ ownEntries x = []) ->
      loadSettings = Obj defaults).
Proof.
  split.
  - unfold Page.loadSettings.
    assert (D : forall k, hasKey k defaults = true -> lookup k defaults <> None).
    { intros k H E. apply hasKey_lookup in E. congruence. }
    destruct (getItem LS_SETTINGS) as [[raw|]|e];
      try (exists defaults; split; [reflexivity|exact D]).
    destruct (raw =? "")%string;
      try (exists defaults; split; [reflexivity|exact D]).
    destruct (JSON_parse raw) as [x|];
      try (exists defaults; split; [reflexivity|exact D]).
    exists (spread defaults x). split; [reflexivity|].
    intros k H. unfold spread. rewrite lookup_spread_entries.
    destruct (lookup k (List.rev (ownEntries x))); [discriminate|].
    apply D; exact H.
  - intros H. unfold Page.loadSettings.
    destruct (getItem LS_SETTINGS) as [[raw|]|e]; try reflexivity.
    destruct (String.eqb_spec raw "") as [->|N]; [reflexivity|].
    destruct (H raw eq_refl) as [E|[E|(x & E & O)]]; [contradiction| |].
    + rewrite E. reflexivity.
    + rewrite E. unfold spread. rewrite O. reflexivity.
Qed.

(** X4.  A stored object overrides exactly the settings it holds: each key of
    the result has the stored value (the last one, should the key repeat),
    and the default where the stored object has no such key. *)
Theorem loadSettings_merges (raw : string) (x : value) (k : string) :
  getItem LS_SETTINGS = Normal (Some raw) ->
  raw <> "" ->
  JSON_parse raw = Some x ->
  field loadSettings k
  = match lookup k (List.rev (ownEntries x)) with
    | Some v => v
    | None => field (Obj defaults) k
    end.
Proof.
  intros G N P. unfold Page.loadSettings. rewrite G.
  destruct (String.eqb_spec raw ""); [contradiction|].
  rewrite P. unfold field at 1, spread. rewrite lookup_spread_entries.
  destruct (lookup k (List.rev (ownEntries x))); reflexivity.
Qed.

(** The text [saveSettings] writes for an object is never empty. *)
Lemma stored_object_nonempty (fields : list (string * value)) :
  stored (Obj fields) <> "".
Proof. unfold stored. simpl. discriminate. Qed.

(** X5.  Save, then load: when the store gives back the text that
    [saveSettings] wrote for a settings object and [JSON.parse] reads that
    text back as the object, [loadSettings] returns every property of it
    unchanged. *)
Theorem save_then_load (fields : list (string * value)) (text : string) (k : string) :
  fst (saveSettings setItem (Obj fields)) = [SetItem LS_SETTINGS text] ->
  getItem LS_SETTINGS = Normal (Some text) ->
  JSON_parse text = Some (Obj fields) ->
  NoDup (map fst fields) ->
  (forall d, hasKey d defaults = true -> hasKey d fields = true) ->
  field loadSettings k = field (Obj fields) k.
Proof.
  intros W G P N H.
  simpl in W. injection W as <-.
  rewrite (loadSettings_merges _ (Obj fields) k G (stored_object_nonempty fields) P).
  simpl ownEntries. rewrite (lookup_rev_unique k fields N).
  unfold field at 2.
  destruct (lookup k fields) eqn:E; [reflexivity|].
  unfold field. destruct (lookup k defaults) eqn:D; [|reflexivity].
  exfalso.
  assert (Hd : hasKey k defaults = true).
  { destruct (hasKey k defaults) eqn:Q; [reflexivity|].
    apply hasKey_lookup in Q. congruence. }
  apply H in Hd. apply hasKey_lookup in E. congruence.
Qed.

End Browser.

Lemma loadSettings_always_settings_witness :
  Page.loadSettings (fun _ => Normal (Some "{not json")) Reader.parseJson
  = Obj defaults.
Proof.
  apply (proj2 (loadSettings_always_settings
                  (fun _ => Normal (Some "{not json")) Reader.parseJson)).
  intros raw E. injection E as <-. right. left. reflexivity.
Defined.

(** A store that holds what [saveSettings] wrote last, or nothing. *)
Lemma loadSettings_merges_witness :
  field (Page.loadSettings
           (fun _ => Normal (Some (dq "{'session': 1, 'theme': 'dark'}")))
           Reader.parseJson) "session" = Num 1
  /\ field (Page.loadSettings
              (fun _ => Normal (Some (dq "{'session': 1, 'theme': 'dark'}")))
              Reader.parseJson) "congress" = Num 118.
Proof.
  split.
  - rewrite (loadSettings_merges
               (fun _ => Normal (Some (dq "{'session': 1, 'theme': 'dark'}")))
               Reader.parseJson
               (dq "{'session': 1, 'theme': 'dark'}")
               (Obj [("session", Num 1); ("theme", Str "dark")]) "session");
      try reflexivity.
    vm_compute. discriminate.
  - rewrite (loadSettings_merges
               (fun _ => Normal (Some (dq "{'session': 1, 'theme': 'dark'}")))
               Reader.parseJson
               (dq "{'session': 1, 'theme': 'dark'}")
               (Obj [("session", Num 1); ("theme", Str "dark")]) "congress");
      try reflexivity.
    vm_compute. discriminate.
Defined.

Lemma save_then_load_witness :
  let s := Obj [("congress", Num 117); ("session", Num 1);
                ("includeHouse", Bool false); ("includeSenate", Bool true)] in
  field (Page.loadSettings (fun _ => Normal (Some (stored s))) Reader.parseJson)
        "includeHouse"
  = Bool false.
Proof.
  cbv zeta.
  rewrite (save_then_load
             (fun _ => Normal (Some (stored (Obj [("congress", Num 117); ("session", Num 1);
                ("includeHouse", Bool false); ("includeSenate", Bool true)]))))
             (fun _ _ => Normal tt) Reader.parseJson
             [("congress", Num 117); ("session", Num 1);
              ("includeHouse", Bool false); ("includeSenate", Bool true)]
             (stored (Obj [("congress", Num 117); ("session", Num 1);
                ("includeHouse", Bool false); ("includeSenate", Bool true)]))
             "includeHouse").
  - reflexivity.
  - reflexivity.
  - reflexivity.
  - vm_compute. reflexivity.
  - simpl. repeat constructor; simpl; intuition discriminate.
  - intros d H. simpl in *. exact H.
Defined.

End PageFacts.

(** ** Class names, dates on the cards, and what the screen shows *)

Module HelperFacts.

Import DOM App Spec Spec2 Page Scenario.

Lemma append_assoc (a b c : string) : ((a ++ b) ++ c = a ++ (b ++ c))%string.
Proof. induction a as [|x a IH]; simpl; [reflexivity|now rewrite IH]. Qed.

Lemma sequence_app {X} (a b : list (completion X)) :
  sequence (a ++ b)
  = (let! pa := sequence a in
     let! pb := sequence b in
     Normal (pa ++ pb)%list).
Proof.
  induction a as [|c a IH]; simpl.
  - destruct (sequence b); reflexivity.
  - destruct c as [x|e]; simpl; [|reflexivity].
    rewrite IH. destruct (sequence a); simpl; [|reflexivity].
    destruct (sequence b); reflexivity.
Qed.

Lemma sequence_length {X} (cs : list (completion X)) (ps : list X) :
  sequence cs = Normal ps -> List.length ps = List.length cs.
Proof.
  revert ps; induction cs as [|c cs IH]; simpl; intros ps H.
  - injection H as <-. reflexivity.
  - destruct c as [x|e]; simpl in H; [|discriminate].
    destruct (sequence cs) as [r|e]; simpl in H; [|discriminate].
    injection H as <-. simpl. f_equal. apply IH. reflexivity.
Qed.

Lemma joinWith_app (sep : string) (pa pb : list string) :
  joinWith sep (pa ++ pb)
  = match pa, pb with
    | [], _ => joinWith sep pb
    | _, [] => joinWith sep pa
    | _, _ => (joinWith sep pa ++ sep ++ joinWith sep pb)%string
    end.
Proof.
  induction pa as [|p rest IH]; [reflexivity|].
  destruct rest as [|r rs].
  - simpl. destruct pb; reflexivity.
  - change (joinWith sep ((p :: r :: rs) ++ pb))
      with (p ++ sep ++ joinWith sep ((r :: rs) ++ pb))%string.
    rewrite IH. destruct pb as [|q qs]; [reflexivity|].
    change (joinWith sep (p :: r :: rs))
      with (p ++ sep ++ joinWith sep (r :: rs))%string.
    rewrite !append_assoc. reflexivity.
Qed.

Lemma filter_none (xs : list value) :
  existsb truthy xs = false <-> filter truthy xs = [].
Proof.
  induction xs as [|x xs IH]; simpl; [tauto|].
  destruct (truthy x); simpl; [split; discriminate|exact IH].
Qed.

(** X6.  [classNames] over two lists of arguments put together: the class
    names of each, with one space between them when both contribute, and
    no space at all for a list whose arguments are all falsy. *)
Theorem classNames_app (xs ys : list value) (a b : string) :
  classNames xs = Normal a ->
  classNames ys = Normal b ->
  classNames (xs ++ ys)
  = Normal (if existsb truthy xs
            then if existsb truthy ys then a ++ " " ++ b else a
            else b).
Proof.
  unfold classNames. rewrite filter_app, map_app, sequence_app.
  destruct (sequence (map _ (filter truthy xs))) as [pa|e] eqn:A;
    simpl; [|discriminate].
  destruct (sequence (map _ (filter truthy ys))) as [pb|e] eqn:B;
    simpl; [|discriminate].
  intros Ha Hb. injection Ha as <-. injection Hb as <-.
  apply sequence_length in A, B. rewrite length_map in A, B.
  rewrite joinWith_app. f_equal.
  destruct (existsb truthy xs) eqn:Ex.
  - destruct pa as [|p pa'].
    { destruct (filter truthy xs) eqn:F; [|discriminate].
      apply filter_none in F. congruence. }
    destruct (existsb truthy ys) eqn:Ey.
    + destruct pb as [|q pb']; [|reflexivity].
      destruct (filter truthy ys) eqn:F; [|discriminate].
      apply filter_none in F. congruence.
    + apply filter_none in Ey. rewrite Ey in B.
      destruct pb; [reflexivity|discriminate].
  - apply filter_none in Ex. rewrite Ex in A.
    destruct pa; [reflexivity|discriminate].
Qed.

Lemma classNames_app_witness :
  classNames ([Str "font-bold"; Bool false] ++ [Str ""; Str "bg-blue-800"])
  = Normal "font-bold bg-blue-800".
Proof.
  apply (classNames_app [Str "font-bold"; Bool false] [Str ""; Str "bg-blue-800"]
                        "font-bold" "bg-blue-800"); reflexivity.
Defined.

Section Dates.

Variable localTZA : Z -> Z.
Variable legacyParse : string -> option Z.
Variable toLocaleString : Z -> string.

Local Abbreviation fmtDate := (Page.fmtDate localTZA legacyParse toLocaleString).

(** X7.  The date on a card.  A House vote never shows "N/A": its date is
    formatted when the joined text parses, and shown as the joined text
    itself ("undefinedTundefined" without the two children) when it does
    not.  A Senate vote whose record has no [vote_date], or a falsy one,
    shows "N/A". *)
Theorem fmtDate_on_votes :
  (forall year v,
      let raw := (orUndefined (textAt (ByTag "action-date") v) ++ "T"
                  ++ orUndefined (textAt (ByTag "action-time") v))%string in
      fmtDate (date (houseVote year v))
      = Normal (match JSDate.parse localTZA legacyParse raw with
                | Some t => toLocaleString t
                | None => raw
                end)
      /\ raw <> "")
  /\ (forall s v vt,
         senateVote s v = Normal vt ->
         truthy (field v "vote_date") = false ->
         fmtDate (date vt) = Normal "N/A").
Proof.
  split.
  - intros year v raw.
    assert (N : raw <> "").
    { unfold raw. destruct (orUndefined _); discriminate. }
    split; [|exact N].
    destruct (MapFacts.houseVote_texts year v) as (D & _).
    fold raw in D. rewrite D.
    unfold Page.fmtDate. simpl truthy.
    destruct (String.eqb_spec raw ""); [contradiction|].
    simpl. destruct (JSDate.parse localTZA legacyParse raw); reflexivity.
  - intros s v vt H F.
    apply MapFacts.senateVote_inv in H
      as (issue & question & r & y & n & k & _ & ->).
    unfold Page.fmtDate, senateMapped. cbn [date]. rewrite F. reflexivity.
Qed.

End Dates.

Lemma fmtDate_on_votes_witness :
  Page.fmtDate utc isoOnly showZ
               (date {| chamber := Senate; number := Num 6; date := Undefined;
                        title := "HR2: On Passage"; result := "Rejected (40-60)";
                        key := "s-118-2-6" |})
  = Normal "N/A".
Proof.
  apply (proj2 (fmtDate_on_votes utc isoOnly showZ) both
               (Obj [("vote_number", Num 6); ("issue", Str "HR2");
                     ("question", Str "On Passage"); ("result", Str "Rejected");
                     ("counts", Obj [("Yea", Num 40); ("Nay", Num 60)])]));
    reflexivity.
Defined.

End HelperFacts.

(** ** More on the two fetch helpers and on a run *)

Module RunFacts.

Import DOM App Spec Spec2 Page Scenario.






Section Client.

Variable fetch : string -> fetched.
Variable JSON_parse : string -> option value.
Variable parseFromString : string -> document.
Variable typeErrorMessage : string -> string.
Variable localTZA : Z -> Z.
Variable legacyParse : string -> option Z.

Local Abbreviation message := (App.message typeErrorMessage).
Local Abbreviation fetchJson := (App.fetchJson fetch JSON_parse).
Local Abbreviation fetchXml := (App.fetchXml fetch parseFromString).
Local Abbreviation senateBranch := (App.senateBranch fetch JSON_parse).
Local Abbreviation houseBranch := (App.houseBranch fetch parseFromString).
Local Abbreviation gather :=
  (App.gather fetch JSON_parse parseFromString localTZA legacyParse).
Local Abbreviation fetchVotes :=
  (App.fetchVotes fetch JSON_parse parseFromString typeErrorMessage
                  localTZA legacyParse).
Local Abbreviation senateGathers := (Spec.senateGathers fetch JSON_parse).
Local Abbreviation houseGathers := (Spec.houseGathers fetch parseFromString).




Lemma first_match (sel : selector) (l : list (string * node)) (pe : string * node) :
  In pe l -> matches sel pe = true ->
  exists err, hd_error (map snd (filter (matches sel) l)) = Some err
              /\ exists pe', In pe' l /\ matches sel pe' = true /\ snd pe' = err.
Proof.
  intros I M.
  assert (I' : In pe (filter (matches sel) l)) by (apply filter_In; split; assumption).
  destruct (filter (matches sel) l) as [|q rest] eqn:E; [contradiction|].
  exists (snd q). split; [reflexivity|].
  exists q. assert (Q : In q (filter (matches sel) l)) by (rewrite E; now left).
  apply filter_In in Q as [Q1 Q2]. repeat split; assumption.
Qed.

(** X10.  [fetchXml] takes any [parsererror] element for a parser error: a
    document that holds one, at whatever depth, is refused even when the
    status is 2xx, with the text of the first such element in document
    order, the one [querySelector] finds. *)
Theorem fetchXml_refuses_parsererror (url label : string) (status : Z)
        (text : string) (pe : string * node) :
  fetch url = Response status (Normal text) ->
  ok status = true ->
  In pe (inDocument (parseFromString text)) ->
  tagOf (snd pe) = "parsererror" ->
  exists err,
    tagOf err = "parsererror"
    /\ docQuerySelector (ByTag "parsererror") (parseFromString text) = Some err
    /\ fetchXml url label
       = ([Fetch url], Throw (Error (xmlParseError label err))).
Proof.
  intros F O I T.
  destruct (first_match (ByTag "parsererror") _ pe I) as (err & H & pe' & _ & M & <-).
  { simpl. rewrite T. reflexivity. }
  exists (snd pe'). split; [|split].
  - simpl in M. apply String.eqb_eq in M. exact M.
  - exact H.
  - unfold App.fetchXml. rewrite F. simpl. rewrite O. simpl.
    unfold docQuerySelector, docQuerySelectorAll. rewrite H. reflexivity.
Qed.

(** X11.  After any run the error and the votes exclude each other: a state
    with an error has no votes.  A run with a chamber selected also ends
    with [loading] off. *)
Theorem error_excludes_votes (s : settings) (st : state) :
  (error (fst (fetchVotes s st)) <> None -> votes (fst (fetchVotes s st)) = [])
  /\ (includeHouse s || includeSenate s = true ->
      loading (fst (fetchVotes s st)) = false).
Proof.
  unfold App.fetchVotes.
  destruct (negb (includeHouse s) && negb (includeSenate s)) eqn:C.
  - split; [reflexivity|].
    destruct (includeHouse s), (includeSenate s); discriminate.
  - destruct (gather s) as [log [vs|e]]; simpl.
    + split; [intros H; exfalso; apply H; reflexivity|reflexivity].
    + split; reflexivity.
Qed.

Lemma senateBranch_fetches (s : settings) :
  filter isFetch (fst (senateBranch s))
  = [Fetch (senateMenuUrl (congress s) (session s))].
Proof.
  unfold App.senateBranch, App.fetchJson.
  destruct (fetch _) as [n m|st [text|e]]; simpl; try reflexivity.
  destruct (ok st); simpl; try reflexivity.
  destruct (JSON_parse text) as [data|]; simpl; try reflexivity.
  destruct (get "data.roll_calls" data "roll_calls") as [rc|e];
    simpl; try reflexivity.
  destruct (if truthy rc then _ else _) as [a|e]; simpl; try reflexivity.
  destruct (truthy a); unfold lift; simpl; reflexivity.
Qed.

Lemma houseBranch_fetches (s : settings) :
  filter isFetch (fst (houseBranch s))
  = [Fetch (HOUSE_ROLLS_INDEX (getYearForCongress (congress s) (session s)))].
Proof.
  unfold App.houseBranch, App.fetchXml.
  destruct (fetch _) as [n m|st [text|e]]; simpl; try reflexivity.
  destruct (ok st); simpl; try reflexivity.
  destruct (docQuerySelector _ _); reflexivity.
Qed.

(** X12.  A run sends at most one request per selected chamber, the Senate's
    first, and none to any other path: the requests sent are a beginning
    of that list, and all of it when the run ends without error. *)
Theorem requests_of_a_run (s : settings) (st : state) :
  exists rest,
    requestsFor s = (filter isFetch (snd (fetchVotes s st)) ++ rest)%list
    /\ (error (fst (fetchVotes s st)) = None -> rest = []).
Proof.
  pose proof (senateBranch_fetches s) as FS.
  pose proof (houseBranch_fetches s) as FH.
  unfold requestsFor, App.fetchVotes, App.gather.
  destruct (includeSenate s), (includeHouse s); simpl.
  - destruct (senateBranch s) as [logS [sv|e]]; simpl in *.
    + destruct (houseBranch s) as [logH [hv|e]]; simpl in *.
      * destruct (JSArray.sort _ _) as [vs|e]; simpl;
          rewrite ?filter_app, ?app_nil_r, ?filter_app, FS, FH; simpl;
          exists []; split; reflexivity.
      * rewrite !filter_app, FS, FH. simpl. exists []. split; reflexivity.
    + rewrite filter_app, FS. simpl. eexists. split; [reflexivity|discriminate].
  - destruct (senateBranch s) as [logS [sv|e]]; simpl in *.
    + destruct (JSArray.sort _ _) as [vs|e]; simpl;
        rewrite ?filter_app, ?app_nil_r, FS; simpl;
        exists []; split; reflexivity.
    + rewrite filter_app, FS. simpl. exists []. split; reflexivity.
  - destruct (houseBranch s) as [logH [hv|e]]; simpl in *.
    + destruct (JSArray.sort _ _) as [vs|e]; simpl;
        rewrite ?filter_app, ?app_nil_r, FH; simpl;
        exists []; split; reflexivity.
    + rewrite filter_app, FH. simpl. exists []. split; reflexivity.
  - exists []. split; reflexivity.
Qed.

Lemma construct_primitive (v : value) :
  primitive v = true ->
  exists t, JSDate.construct localTZA legacyParse v = Normal t.
Proof.
  destruct v; simpl; try discriminate; intros _; eexists; reflexivity.
Qed.

Lemma compare_completes (a b : vote) :
  (exists t, JSDate.construct localTZA legacyParse (date a) = Normal t) ->
  (exists t, JSDate.construct localTZA legacyParse (date b) = Normal t) ->
  exists v, byDateDescending localTZA legacyParse a b = Normal v.
Proof.
  intros [ta Ha] [tb Hb]. unfold byDateDescending, JSDate.minus.
  rewrite Hb, Ha. simpl. eexists; reflexivity.
Qed.

Lemma houseGathers_dates (s : settings) (log : list effect) (hv : list vote) :
  houseGathers s log hv ->
  Forall (fun v => primitive (date v) = true) hv.
Proof.
  unfold Spec.houseGathers. destruct (includeHouse s).
  - intros H. apply ClientFacts.houseBranch_inv in H as (_ & doc & ->).
    apply Forall_forall. intros v I.
    apply in_map_iff in I as (e & <- & _). reflexivity.
  - intros H. injection H as _ <-. constructor.
Qed.

(** X13.  An invalid date never costs a vote.  When the selected branches
    gathered their votes and every Senate [vote_date] is a number, a
    string, a boolean, [null] or missing, the run ends without error and
    returns all the gathered votes, each once. *)
Theorem no_vote_lost (s : settings) (st : state) (logS logH : list effect)
        (sv hv : list vote) :
  includeHouse s || includeSenate s = true ->
  senateGathers s logS sv ->
  houseGathers s logH hv ->
  Forall (fun v => primitive (date v) = true) sv ->
  exists sorted,
    fetchVotes s st
    = ({| votes := sorted; loading := false; error := None |},
       (logS ++ logH)%list)
    /\ Permutation (sv ++ hv) sorted
    /\ List.length sorted = (List.length sv + List.length hv)%nat.
Proof.
  intros Hsel GS GH PS.
  pose proof (houseGathers_dates s logH hv GH) as PH.
  assert (P : Forall (fun v => primitive (date v) = true) (sv ++ hv))
    by (apply Forall_app; split; assumption).
  rewrite Forall_forall in P.
  destruct (SortFacts.sort_completes
              (byDateDescending localTZA legacyParse) (sv ++ hv))
    as [sorted S].
  { intros x y Ix Iy.
    apply compare_completes; apply construct_primitive, P; assumption. }
  exists sorted.
  pose proof (SortFacts.sort_Permutation _ _ _ S) as Q.
  split; [|split].
  - apply ClientFacts.fetchVotes_normal; [exact Hsel|].
    rewrite (ClientFacts.gather_sort _ _ _ _ _ s logS logH sv hv GS GH), S.
    reflexivity.
  - exact Q.
  - rewrite <- (Permutation_length Q), length_app. reflexivity.
Qed.

(** X14.  A House feed that the parser accepts always gives a run without
    error, whatever its elements lack: with the House alone selected, the
    run returns one vote for each [rollcall-vote] element of the
    document. *)
Theorem house_only_run (s : settings) (st : state) (status : Z) (text : string) :
  let year := getYearForCongress (congress s) (session s) in
  let elements := docQuerySelectorAll (ByTag "rollcall-vote") (parseFromString text) in
  includeSenate s = false ->
  includeHouse s = true ->
  fetch (HOUSE_ROLLS_INDEX year) = Response status (Normal text) ->
  ok status = true ->
  docQuerySelector (ByTag "parsererror") (parseFromString text) = None ->
  exists sorted,
    fetchVotes s st
    = ({| votes := sorted; loading := false; error := None |},
       [Fetch (HOUSE_ROLLS_INDEX year)])
    /\ Permutation (map (houseVote year) elements) sorted
    /\ List.length sorted = List.length elements.
Proof.
  intros year elements Hs Hh F O P.
  pose proof (ClientFacts.houseBranch_gathers fetch parseFromString s status text F O P)
    as B. fold year in B. fold elements in B.
  assert (GS : senateGathers s [] [])
    by (unfold Spec.senateGathers; rewrite Hs; reflexivity).
  assert (GH : houseGathers s [Fetch (HOUSE_ROLLS_INDEX year)]
                            (map (houseVote year) elements))
    by (unfold Spec.houseGathers; rewrite Hh; exact B).
  destruct (SortFacts.sort_completes
              (byDateDescending localTZA legacyParse)
              (map (houseVote year) elements)) as [sorted S].
  { intros x y Ix Iy.
    apply in_map_iff in Ix as (a & <- & _).
    apply in_map_iff in Iy as (b & <- & _).
    apply ClientFacts.house_dates_compare. }
  exists sorted.
  pose proof (SortFacts.sort_Permutation _ _ _ S) as Q.
  split; [|split].
  - apply ClientFacts.fetchVotes_normal; [rewrite Hh; reflexivity|].
    rewrite (ClientFacts.gather_sort _ _ _ _ _ s [] _ [] _ GS GH).
    simpl. rewrite S. reflexivity.
  - exact Q.
  - rewrite <- (Permutation_length Q), length_map. reflexivity.
Qed.

Lemma sequence_map_throw {X Y} (f : X -> completion Y) (good : list X)
      (bad : X) (rest : list X) (e : exn) :
  Forall (fun x => exists y, f x = Normal y) good ->
  f bad = Throw e ->
  sequence (map f (good ++ bad :: rest)) = Throw e.
Proof.
  induction 1 as [|x good [y Hx] _ IH]; intros Hb; simpl.
  - rewrite Hb. reflexivity.
  - rewrite Hx. simpl. rewrite (IH Hb). reflexivity.
Qed.

(** X15.  One record that cannot be mapped is fatal to the whole run: the
    votes of the records before it are dropped, the House is not asked,
    and the error is that of the first such record. *)
Theorem bad_record_is_fatal (s : settings) (st : state) (status : Z)
        (text : string) (data : value) (good : list value) (bad : value)
        (rest : list value) (e : exn) :
  includeSenate s = true ->
  fetch (senateMenuUrl (congress s) (session s)) = Response status (Normal text) ->
  ok status = true ->
  JSON_parse text = Some data ->
  field (field data "roll_calls") "roll_call" = Arr (good ++ bad :: rest) ->
  Forall (fun v => exists vt, senateVote s v = Normal vt) good ->
  senateVote s bad = Throw e ->
  fetchVotes s st
  = ({| votes := []; loading := false; error := Some (message e) |},
     [Fetch (senateMenuUrl (congress s) (session s)); ConsoleError e]).
Proof.
  intros Hs Hf Hok Hp Hr Hg Hb.
  assert (B : senateBranch s
              = ([Fetch (senateMenuUrl (congress s) (session s))], Throw e)).
  { assert (Hrc : exists fields, field data "roll_calls" = Obj fields).
    { destruct (field data "roll_calls"); simpl in Hr; try discriminate.
      eexists; reflexivity. }
    destruct Hrc as [fields Hrc].
    assert (Hd : nullish data = false).
    { destruct data; simpl in Hrc; try discriminate; reflexivity. }
    unfold App.senateBranch, App.fetchJson.
    rewrite Hf; simpl. rewrite Hok; simpl. rewrite Hp; simpl.
    rewrite (ValueFacts.get_field _ data) by exact Hd. simpl.
    rewrite Hrc. simpl truthy. cbv iota.
    rewrite <- Hrc.
    rewrite (ValueFacts.get_field _ (field data "roll_calls"))
      by (rewrite Hrc; reflexivity).
    simpl. rewrite Hr. simpl.
    rewrite (sequence_map_throw (senateVote s) good bad rest e Hg Hb).
    reflexivity. }
  rewrite (ClientFacts.fetchVotes_throw
             fetch JSON_parse parseFromString typeErrorMessage
             localTZA legacyParse s st
             [Fetch (senateMenuUrl (congress s) (session s))] e).
  - reflexivity.
  - rewrite Hs. apply orb_true_r.
  - apply ClientFacts.gather_senate_throw; assumption.
Qed.

(** X16.  After any run the screen shows exactly one of its three regions: the
    alert with the error, the "No Votes Loaded" panel, or the cards.  The
    cards never stand beside an alert; an error whose message is empty
    shows the panel, not an alert. *)
Theorem one_region_shown (s : settings) (st : state) :
  let sc := render (fst (fetchVotes s st)) in
  shown sc = 1%nat
  /\ (cards sc <> [] -> alert sc = None)
  /\ (error (fst (fetchVotes s st)) = Some "" ->
      alert sc = None /\ emptyPanel sc = true).
Proof.
  unfold App.fetchVotes.
  destruct (negb (includeHouse s) && negb (includeSenate s)).
  - simpl. unfold shown, render; simpl. rewrite !andb_false_r. simpl.
    repeat split; try discriminate; try (intros H; contradiction).
  - destruct (gather s) as [log [vs|e]]; simpl.
    + unfold shown, render; simpl.
      destruct vs as [|v vs]; simpl; repeat split; try discriminate;
        try (intros H; contradiction).
    + unfold shown, render; simpl.
      destruct (message e =? "")%string eqn:E; simpl;
        repeat split; try discriminate; try (intros; contradiction);
        match goal with
        | Hm : Some _ = Some _ |- _ =>
            injection Hm as Hm; rewrite Hm in E; discriminate E
        end.
Qed.

End Client.

Import Scenario2.


Lemma fetchXml_refuses_parsererror_witness :
  exists err,
    tagOf err = "parsererror"
    /\ App.fetchXml (network (served senateBody) (served quotedErrorBody))
                    Reader.parseXml "/api/house/2024" "House Votes"
       = ([Fetch "/api/house/2024"],
          Throw (Error (xmlParseError "House Votes" err))).
Proof.
  destruct (fetchXml_refuses_parsererror
              (network (served senateBody) (served quotedErrorBody))
              Reader.parseXml "/api/house/2024" "House Votes" 200 quotedErrorBody
              ("vote-question", Element "parsererror" [Text "sample"]))
    as (err & T & _ & E).
  - reflexivity.
  - reflexivity.
  - vm_compute. tauto.
  - reflexivity.
  - exists err. split; [exact T|exact E].
Defined.

Lemma no_vote_lost_witness :
  exists sorted,
    run (network (served undatedSenateBody) (served houseBody)) both
    = ({| votes := sorted; loading := false; error := None |},
       [Fetch "/api/senate/118/2"; Fetch "/api/house/2024"])
    /\ Permutation ([senateVote5; senateVote6] ++ [houseVote10]) sorted
    /\ List.length sorted = 3%nat.
Proof.
  apply (no_vote_lost
           (network (served undatedSenateBody) (served houseBody))
           Reader.parseJson Reader.parseXml engineMessage utc isoOnly
           both idle [Fetch "/api/senate/118/2"] [Fetch "/api/house/2024"]
           [senateVote5; senateVote6] [houseVote10]).
  - reflexivity.
  - vm_compute. reflexivity.
  - vm_compute. reflexivity.
  - repeat constructor.
Defined.

Lemma house_only_run_witness :
  exists sorted,
    fetchVotes (network (served senateBody) (served undatedHouseBody))
               Reader.parseJson Reader.parseXml engineMessage utc isoOnly
               houseAlone idle
    = ({| votes := sorted; loading := false; error := None |},
       [Fetch "/api/house/2024"])
    /\ List.length sorted = 1%nat.
Proof.
  destruct (house_only_run
              (network (served senateBody) (served undatedHouseBody))
              Reader.parseJson Reader.parseXml engineMessage utc isoOnly
              houseAlone idle 200 undatedHouseBody)
    as (sorted & E & _ & L); try reflexivity.
  exists sorted. split; [exact E|]. rewrite L. vm_compute. reflexivity.
Defined.

Lemma bad_record_is_fatal_witness :
  run (network (served mixedRecordsBody) (served houseBody)) both
  = ({| votes := []; loading := false;
        error := Some "TypeError: v.issue.trim" |},
     [Fetch "/api/senate/118/2"; ConsoleError (TypeError "v.issue.trim")]).
Proof.
  apply (bad_record_is_fatal
           (network (served mixedRecordsBody) (served houseBody))
           Reader.parseJson Reader.parseXml engineMessage utc isoOnly
           both idle 200 mixedRecordsBody
           (Obj [("roll_calls",
                  Obj [("roll_call",
                        Arr [senateRecord; Obj [("vote_number", Num 6)]])])])
           [senateRecord] (Obj [("vote_number", Num 6)]) []
           (TypeError "v.issue.trim")).
  - reflexivity.
  - reflexivity.
  - reflexivity.
  - vm_compute. reflexivity.
  - reflexivity.
  - constructor; [|constructor]. eexists. reflexivity.
  - reflexivity.
Defined.

End RunFacts.

(** ** The proxy's status, and the page behind the proxy *)

Module StackFacts.

Import App Spec Spec2 Scenario Scenario2 Deployment.

Lemma resolves_iff (st : Z) : Proxy.resolves st = true <-> 200 <= st <= 299.
Proof.
  unfold Proxy.resolves. rewrite andb_true_iff, Z.leb_le, Z.ltb_lt. lia.
Qed.

Lemma ok_iff (st : Z) : ok st = true <-> 200 <= st <= 299.
Proof. unfold ok. rewrite andb_true_iff, !Z.leb_le. lia. Qed.

Lemma failure_not_ok (u : Proxy.upstream) :
  (forall st text, u = Proxy.Upstream st text -> ~ 200 <= st <= 299) ->
  ok (Proxy.failureStatus u) = false.
Proof.
  intros H. destruct u as [m|st text]; simpl; [reflexivity|].
  destruct (Z.eqb_spec st 0); [reflexivity|].
  destruct (ok st) eqn:O; [|reflexivity].
  apply ok_iff in O. exfalso. exact (H st text eq_refl O).
Qed.

(** X17.  A route answers 200 exactly when the government server answered with
    a 2xx status; any other answer of the route has a status outside 2xx,
    so the page never takes a failure for a success. *)
Theorem proxy_status (axios_get : string -> Proxy.upstream)
        (JSON_parse : string -> option value) (congress session year : string) :
  let senate := Proxy.getSenate axios_get JSON_parse congress session in
  let house := Proxy.getHouse axios_get year in
  (Proxy.status senate = 200 <->
   exists st text,
     axios_get (Proxy.senateUrl congress session) = Proxy.Upstream st text
     /\ 200 <= st <= 299)
  /\ (Proxy.status house = 200 <->
      exists st text,
        axios_get (Proxy.houseUrl year) = Proxy.Upstream st text
        /\ 200 <= st <= 299)
  /\ (ok (Proxy.status senate) = true -> Proxy.status senate = 200)
  /\ (ok (Proxy.status house) = true -> Proxy.status house = 200).
Proof.
  assert (K : forall u,
             (forall st text, u = Proxy.Upstream st text -> ~ 200 <= st <= 299) ->
             Proxy.failureStatus u <> 200
             /\ (ok (Proxy.failureStatus u) = true -> Proxy.failureStatus u = 200)).
  { intros u H. pose proof (failure_not_ok u H) as F. split.
    - intros E. rewrite E in F. discriminate.
    - rewrite F. discriminate. }
  cbv zeta. unfold Proxy.getSenate, Proxy.getHouse.
  repeat split.
  - destruct (axios_get (Proxy.senateUrl congress session)) as [m|st text] eqn:U.
    + simpl. discriminate.
    + destruct (Proxy.resolves st) eqn:R.
      * intros _. exists st, text. split; [reflexivity|apply resolves_iff; exact R].
      * intros E. exfalso. simpl in E.
        apply (proj1 (K (Proxy.Upstream st text)
                        ltac:(intros ? ? Q A; injection Q as <- _;
                              apply resolves_iff in A; congruence))).
        exact E.
  - intros (st & text & U & R). rewrite U.
    apply resolves_iff in R. rewrite R. reflexivity.
  - destruct (axios_get (Proxy.houseUrl year)) as [m|st text] eqn:U.
    + simpl. discriminate.
    + destruct (Proxy.resolves st) eqn:R.
      * intros _. exists st, text. split; [reflexivity|apply resolves_iff; exact R].
      * intros E. exfalso. simpl in E.
        apply (proj1 (K (Proxy.Upstream st text)
                        ltac:(intros ? ? Q A; injection Q as <- _;
                              apply resolves_iff in A; congruence))).
        exact E.
  - intros (st & text & U & R). rewrite U.
    apply resolves_iff in R. rewrite R. reflexivity.
  - destruct (axios_get (Proxy.senateUrl congress session)) as [m|st text] eqn:U.
    + simpl. discriminate.
    + destruct (Proxy.resolves st) eqn:R; [reflexivity|]. simpl.
      apply (proj2 (K (Proxy.Upstream st text)
                      ltac:(intros ? ? Q A; injection Q as <- _;
                            apply resolves_iff in A; congruence))).
  - destruct (axios_get (Proxy.houseUrl year)) as [m|st text] eqn:U.
    + simpl. discriminate.
    + destruct (Proxy.resolves st) eqn:R; [reflexivity|]. simpl.
      apply (proj2 (K (Proxy.Upstream st text)
                      ltac:(intros ? ? Q A; injection Q as <- _;
                            apply resolves_iff in A; congruence))).
Qed.

Section Stack.

Variable axios_get : string -> Proxy.upstream.
Variable serverParse : string -> option value.
Variable browserParse : string -> option value.
Variable parseFromString : string -> DOM.document.
Variable typeErrorMessage : string -> string.
Variable localTZA : Z -> Z.
Variable legacyParse : string -> option Z.

Local Abbreviation throughProxy := (Deployment.throughProxy axios_get serverParse).

Lemma throughProxy_senate (s : settings) :
  throughProxy s (senateMenuUrl (congress s) (session s))
  = answer (Proxy.getSenate axios_get serverParse
                            (showZ (congress s)) (showZ (session s))).
Proof. unfold Deployment.throughProxy. rewrite String.eqb_refl. reflexivity. Qed.

Lemma throughProxy_house (s : settings) :
  throughProxy s (HOUSE_ROLLS_INDEX (getYearForCongress (congress s) (session s)))
  = answer (Proxy.getHouse axios_get
                           (showZ (getYearForCongress (congress s) (session s)))).
Proof.
  unfold Deployment.throughProxy.
  assert (E : (HOUSE_ROLLS_INDEX (getYearForCongress (congress s) (session s))
               =? senateMenuUrl (congress s) (session s))%string = false)
    by reflexivity.
  rewrite E, String.eqb_refl. reflexivity.
Qed.

(** X18.  Behind the proxy, a failure of the Senate's server (no response, or a
    status outside 2xx) reaches the user as an HTTP failure of the proxy,
    never as a network failure: the run ends without votes, the House is
    not asked, and the message gives the proxy's status (500 when there was
    no response) and the proxy's own text, not the server's body. *)
Theorem upstream_failure_reaches_user (s : settings) (st : state) :
  let u := axios_get (Proxy.senateUrl (showZ (congress s)) (showZ (session s))) in
  let e := Error (httpFailure "Senate Votes" (Proxy.failureStatus u)
                              "Error fetching data from Senate API") in
  includeSenate s = true ->
  (forall status text, u = Proxy.Upstream status text -> ~ 200 <= status <= 299) ->
  fetchVotes (throughProxy s) browserParse parseFromString typeErrorMessage
             localTZA legacyParse s st
  = ({| votes := []; loading := false;
        error := Some (httpFailure "Senate Votes" (Proxy.failureStatus u)
                                   "Error fetching data from Senate API") |},
     [Fetch (senateMenuUrl (congress s) (session s)); ConsoleError e])
  /\ (forall m, u = Proxy.NoResponse m ->
      httpFailure "Senate Votes" (Proxy.failureStatus u)
                  "Error fetching data from Senate API"
      = "Senate Votes failed (HTTP 500). Error fetching data from Senate API").
Proof.
  intros u e Hs Hu.
  split; [|intros m E; rewrite E; vm_compute; reflexivity].
  assert (R : Proxy.getSenate axios_get serverParse
                              (showZ (congress s)) (showZ (session s))
              = Proxy.resFailure u Proxy.senateFailed).
  { unfold Proxy.getSenate. fold u.
    destruct u as [m|status text] eqn:U; [reflexivity|].
    destruct (Proxy.resolves status) eqn:Q; [|reflexivity].
    apply resolves_iff in Q. exfalso. exact (Hu status text eq_refl Q). }
  assert (B : senateBranch (throughProxy s) browserParse s
              = ([Fetch (senateMenuUrl (congress s) (session s))], Throw e)).
  { unfold senateBranch, fetchJson. rewrite throughProxy_senate, R.
    unfold answer, Proxy.resFailure. cbn [Proxy.status Proxy.body].
    simpl. rewrite (failure_not_ok u Hu). reflexivity. }
  rewrite (ClientFacts.fetchVotes_throw
             (throughProxy s) browserParse parseFromString typeErrorMessage
             localTZA legacyParse s st
             [Fetch (senateMenuUrl (congress s) (session s))] e).
  - reflexivity.
  - rewrite Hs. apply orb_true_r.
  - apply ClientFacts.gather_senate_throw; assumption.
Qed.

(** X19.  Behind the proxy, a success of the government server is passed on
    whole.  [fetchJson] returns the value the proxy parsed, provided the
    browser's [JSON.parse] reads back what the proxy serialized; [fetchXml]
    receives the server's XML text itself, with status 200. *)
Theorem proxy_is_transparent (s : settings) (label : string) :
  let year := getYearForCongress (congress s) (session s) in
  (forall status text data,
      axios_get (Proxy.senateUrl (showZ (congress s)) (showZ (session s)))
      = Proxy.Upstream status text ->
      200 <= status <= 299 ->
      serverParse text = Some data ->
      browserParse (Proxy.body (Proxy.resJson data)) = Some data ->
      fetchJson (throughProxy s) browserParse
                (senateMenuUrl (congress s) (session s)) label
      = ([Fetch (senateMenuUrl (congress s) (session s))], Normal data))
  /\ (forall status text,
         axios_get (Proxy.houseUrl (showZ year)) = Proxy.Upstream status text ->
         200 <= status <= 299 ->
         throughProxy s (HOUSE_ROLLS_INDEX year) = Response 200 (Normal text)).
Proof.
  intros year. split.
  - intros status text data U R P B.
    unfold fetchJson. rewrite throughProxy_senate.
    unfold Proxy.getSenate. rewrite U.
    apply resolves_iff in R. rewrite R.
    unfold Proxy.jsonData. rewrite P.
    unfold answer. unfold Proxy.resJson in *.
    cbn [Proxy.status Proxy.body] in *.
    cbn [andThen tell lift ret app].
    assert (O : ok 200 = true) by reflexivity. rewrite O.
    cbn [negb]. rewrite B. reflexivity.
  - intros status text U R. unfold year.
    rewrite throughProxy_house. unfold Proxy.getHouse. fold year. rewrite U.
    apply resolves_iff in R. rewrite R. reflexivity.
Qed.

End Stack.

Lemma upstream_failure_reaches_user_witness :
  fetchVotes (Deployment.throughProxy (always (Proxy.NoResponse "ENOTFOUND"))
                                      Reader.parseJson both)
             Reader.parseJson Reader.parseXml engineMessage utc isoOnly
             both idle
  = ({| votes := []; loading := false;
        error := Some "Senate Votes failed (HTTP 500). Error fetching data from Senate API" |},
     [Fetch "/api/senate/118/2";
      ConsoleError
        (Error "Senate Votes failed (HTTP 500). Error fetching data from Senate API")]).
Proof.
  destruct (upstream_failure_reaches_user
              (always (Proxy.NoResponse "ENOTFOUND"))
              Reader.parseJson Reader.parseJson Reader.parseXml
              engineMessage utc isoOnly both idle) as [E _].
  - reflexivity.
  - intros status text Q. discriminate Q.
  - rewrite E. vm_compute. reflexivity.
Defined.

Lemma proxy_is_transparent_witness :
  fetchJson (Deployment.throughProxy (always (Proxy.Upstream 200 senateBody))
                                     Reader.parseJson both)
            Reader.parseJson "/api/senate/118/2" "Senate Votes"
  = ([Fetch "/api/senate/118/2"],
     Normal (Obj [("roll_calls", Obj [("roll_call", Arr [senateRecord])])])).
Proof.
  apply (proj1 (proxy_is_transparent
                  (always (Proxy.Upstream 200 senateBody))
                  Reader.parseJson Reader.parseJson both "Senate Votes")
               200 senateBody).
  - reflexivity.
  - lia.
  - vm_compute. reflexivity.
  - vm_compute. reflexivity.
Defined.

End StackFacts.
